(** * Slideflow: validation planning, extraction orchestration and Reinhard
    stain normalisation

    A shallow embedding of

    - [get_training_and_validation_tfrecords] and its local [split]
      (slideflow/__init__.py),
    - the resumability filter of [extract_tiles] and the corruption retry of
      [predict_wsi] (slideflow/project.py),
    - the module-level [fit] / [transform] and the context handling of
      [ReinhardFastNormalizer] (slideflow/norm/torch/reinhard.py),

    followed by the properties proved about them. *)

From Stdlib Require Import String Ascii.
From Stdlib Require Import List ZArith Lia Bool Arith Permutation.
From Stdlib Require PrimFloat Uint63.
Import ListNotations.

Set Implicit Arguments.

(* ================================================================== *)
(** * Python values shared by the three files *)
(* ================================================================== *)

(** Exceptions the modelled code can raise.  [SystemExit] is [sys.exit()]. *)
Inductive exn : Type :=
| ValueError
| RuntimeError
| NameError
| IndexError
| ZeroDivisionError
| SystemExit
| TileCorruptionError
| EmptyMaskError.

(** The outcome of a call: a returned value or a raised exception. *)
Inductive result (A : Type) : Type :=
| Ok (a : A)
| Raise (e : exn).
Arguments Ok {A} a.
Arguments Raise {A} e.

Definition bind {A B} (r : result A) (k : A -> result B) : result B :=
  match r with
  | Ok a => k a
  | Raise e => Raise e
  end.

Declare Scope py_scope.
Delimit Scope py_scope with py.
Notation "x <- r ;; k" := (bind r (fun x => k))
  (at level 61, r at next level, right associativity) : py_scope.

Module Py.

(** [range(n)] for an integer [n]; empty when [n <= 0]. *)
Definition range (n : Z) : list Z := map Z.of_nat (seq 0 (Z.to_nat n)).

(** A slice bound as CPython's [PySlice_AdjustIndices] adjusts it (step 1):
    a negative bound counts from the end, and the result is clamped to
    [0 .. len]. *)
Definition adjust (len i : Z) : Z :=
  if (i <? 0)%Z then Z.max 0 (i + len) else Z.min i len.

(** [a[lo:hi]] *)
Definition slice {A} (a : list A) (lo hi : Z) : list A :=
  let len := Z.of_nat (length a) in
  let lo' := adjust len lo in
  let hi' := adjust len hi in
  firstn (Z.to_nat (hi' - lo')) (skipn (Z.to_nat lo') a).

(** [a[lo:]] *)
Definition slice_from {A} (a : list A) (lo : Z) : list A :=
  skipn (Z.to_nat (adjust (Z.of_nat (length a)) lo)) a.

(** [a[i]] with Python's negative indices; [IndexError] out of range. *)
Definition index {A} (a : list A) (i : Z) : result A :=
  let len := Z.of_nat (length a) in
  let i' := if (i <? 0)%Z then (i + len)%Z else i in
  if (i' <? 0)%Z then Raise IndexError
  else match nth_error a (Z.to_nat i') with
       | Some x => Ok x
       | None => Raise IndexError
       end.

(** [x in l] for strings. *)
Definition mem (x : string) (l : list string) : bool :=
  existsb (String.eqb x) l.

(** [del l[l.index(x)]]: removes the first occurrence of [x] only. *)
Fixpoint del_first (x : string) (l : list string) : list string :=
  match l with
  | [] => []
  | y :: l' => if String.eqb x y then l' else y :: del_first x l'
  end.

(** [l[i] = x] (the caller guarantees [i < len(l)]). *)
Fixpoint set_item {A} (l : list A) (i : nat) (x : A) : list A :=
  match l, i with
  | [], _ => []
  | _ :: l', O => x :: l'
  | y :: l', S i' => y :: set_item l' i' x
  end.

(** [s.split('/')[-1]]: what follows the last ['/'] of [s]. *)
Fixpoint last_component (s : string) : string :=
  match s with
  | EmptyString => EmptyString
  | String c s' =>
      if existsb (Ascii.eqb "/"%char) (list_ascii_of_string s')
      then last_component s'
      else if Ascii.eqb c "/"%char then s' else s
  end.

(** [s[:-10]]: [s] without its last ten characters (empty when [s] has at
    most ten). *)
Definition drop_suffix10 (s : string) : string :=
  String.substring 0 (String.length s - 10) s.

End Py.

(* ================================================================== *)
(** * slideflow/__init__.py: the validation planner *)
(* ================================================================== *)

Module Planner.
Import Py.
Local Open Scope py_scope.

(** [random.shuffle(x)]:
<<
    for i in reversed(range(1, len(x))):
        j = randbelow(i + 1)
        x[i], x[j] = x[j], x[i]
>>
    The generator is an explicit input: [rand i] is the raw draw made for
    position [i], reduced below [i + 1]. *)
Definition swap {A} (x : list A) (i j : nat) : list A :=
  match nth_error x i, nth_error x j with
  | Some xi, Some xj => set_item (set_item x i xj) j xi
  | _, _ => x
  end.

Fixpoint shuffle_from {A} (rand : nat -> nat) (i : nat) (x : list A) : list A :=
  match i with
  | O => x
  | S i' => shuffle_from rand i' (swap x i (Nat.modulo (rand i) (i + 1)))
  end.

Definition shuffle {A} (rand : nat -> nat) (x : list A) : list A :=
  shuffle_from rand (length x - 1) x.

(** The local helper of the k-fold branch:
<<
    def split(a, n):
        k, m = divmod(len(a), n)
        return (a[i * k + min(i, m):(i + 1) * k + min(i + 1, m)] for i in range(n))
>>
    [divmod] and [range(n)] are evaluated at the call; the caller wraps the
    generator in [list]. *)
Definition split {A} (a : list A) (n : Z) : result (list (list A)) :=
  if (n =? 0)%Z then Raise ZeroDivisionError
  else
    let len := Z.of_nat (length a) in
    let k := (len / n)%Z in
    let m := (len mod n)%Z in
    Ok (map (fun i => slice a (i * k + Z.min i m) ((i + 1) * k + Z.min (i + 1) m))
            (range n)).

(** The validation plan as [validation_plan.json] holds it: the value under
    ['fixed'] is a list of record names, the value under ['k-fold'] a list
    of such lists, one per fold; either key may be absent. *)
Record validation_plan : Type := {
  fixed : option (list string);
  k_fold_plan : option (list (list string))
}.

Definition empty_plan : validation_plan :=
  {| fixed := None; k_fold_plan := None |}.

(** [tfr.split('/')[-1][:-10] in slide_list] *)
Definition in_slide_list (slide_list : list string) (tfr : string) : bool :=
  mem (drop_suffix10 (last_component tfr)) slide_list.

(** What a call returns together with the plan file it leaves behind
    ([None]: no [validation_plan.json]). *)
Definition outcome : Type :=
  ((list string * list string) * option validation_plan)%type.

(** The loop that fills a new k-fold plan:
<<
    for k in range(k_fold):
        if k == k_fold_index:
            validation_tfrecords = split_records[k]
        else:
            training_tfrecords += split_records[k]
        validation_plan['k-fold'] += [[tfr.split('/')[-1] for tfr in split_records[k]]]
>>
    [k_fold_index] is unbound when no [k_fold_iter] was given. *)
Fixpoint k_fold_loop (ks : list Z) (k_fold_index : option Z)
         (split_records : list (list string))
         (training validation : list string) (folds : list (list string))
  : result (list string * list string * list (list string)) :=
  match ks with
  | [] => Ok (training, validation, folds)
  | k :: ks' =>
      idx <- match k_fold_index with
             | Some i => Ok i
             | None => Raise NameError
             end ;;
      rec <- index split_records k ;;
      let training' := if (k =? idx)%Z then training else training ++ rec in
      let validation' := if (k =? idx)%Z then rec else validation in
      k_fold_loop ks' k_fold_index split_records training' validation'
                  (folds ++ [map last_component rec])
  end.

Section PerSlide.
(** The directory listing, the caller's slide list and the settings of one
    call.  [num_val_of n] stands for [int(val_fraction * n)], a product
    of a float and an integer truncated towards zero. *)
Variable globbed : list string.      (* glob(join(tfrecord_dir, "*.tfrecords")) *)
Variable subdirs : list string.
Variable slide_list : list string.
Variable val_strategy : string.
Variable num_val_of : nat -> Z.
Variable k_fold : Z.
Variable k_fold_iter : option Z.

(** [if k_fold_iter: k_fold_index = int(k_fold_iter)-1] *)
Definition k_fold_index : option Z :=
  match k_fold_iter with
  | Some it => if (it =? 0)%Z then None else Some (it - 1)%Z
  | None => None
  end.

(** The records of the slide list, in the order [shuffle] leaves them. *)
Definition shuffled_tfrecords (rand : nat -> nat) : list string :=
  shuffle rand (filter (in_slide_list slide_list) globbed).

(** "Create a new fixed validation plan and log plan results" *)
Definition new_fixed_plan (tfrecords : list string) (plan : validation_plan)
  : result outcome :=
  let num_val := num_val_of (length tfrecords) in
  let validation_tfrecords := slice tfrecords 0 num_val in
  let training_tfrecords := slice_from tfrecords num_val in
  let plan' := {| fixed := Some (map last_component validation_tfrecords);
                  k_fold_plan := k_fold_plan plan |} in
  Ok ((training_tfrecords, validation_tfrecords), Some plan').

(** "Create a new k-fold validation plan and log plan results" *)
Definition new_k_fold_plan (tfrecords : list string) (plan : validation_plan)
  : result outcome :=
  split_records <- split tfrecords k_fold ;;
  r <- k_fold_loop (range k_fold) k_fold_index split_records [] [] [] ;;
  let '(training_tfrecords, validation_tfrecords, folds) := r in
  let plan' := {| fixed := fixed plan; k_fold_plan := Some folds |} in
  Ok ((training_tfrecords, validation_tfrecords), Some plan').

(** The ['per-slide'] branch of [get_training_and_validation_tfrecords],
    from the plan file [validation_log] it finds. *)
Definition get_training_and_validation_tfrecords
           (rand : nat -> nat) (validation_log : option validation_plan)
  : result outcome :=
  let tfrecords := shuffled_tfrecords rand in
  if negb (length subdirs =? 0) then Raise SystemExit
  else if String.eqb val_strategy "bootstrap" then
    let num_val := num_val_of (length tfrecords) in
    Ok ((slice_from tfrecords num_val, slice tfrecords 0 num_val), validation_log)
  else if String.eqb val_strategy "fixed" then
    let num_val := num_val_of (length tfrecords) in
    match validation_log with
    | None => new_fixed_plan tfrecords empty_plan
    | Some plan =>
        match fixed plan with
        | None => new_fixed_plan tfrecords plan
        | Some logged =>
            if negb (Z.of_nat (length logged) =? num_val)%Z
            then new_fixed_plan tfrecords plan
            else if forallb (fun tf => mem (drop_suffix10 tf) slide_list) logged
            then
              Ok ((filter (fun tfr => negb (mem (last_component tfr) logged)) tfrecords,
                   filter (fun tfr => mem (last_component tfr) logged) tfrecords),
                  validation_log)
            else new_fixed_plan tfrecords plan
        end
    end
  else if String.eqb val_strategy "k-fold" then
    match validation_log with
    | None => new_k_fold_plan tfrecords empty_plan
    | Some plan =>
        match k_fold_plan plan with
        | None => new_k_fold_plan tfrecords plan
        | Some folds =>
            if negb (Z.of_nat (length folds) =? k_fold)%Z
            then new_k_fold_plan tfrecords plan
            else
              let logged_cases := concat folds in
              if negb (length logged_cases =? length tfrecords)
              then new_k_fold_plan tfrecords plan
              else if forallb (fun tf => mem (drop_suffix10 tf) slide_list) logged_cases
              then
                match tfrecords with
                | [] => Ok (([], []), validation_log)
                | _ :: _ =>
                    (* the comprehensions evaluate
                       validation_plan['k-fold'][k_fold_index] *)
                    idx <- match k_fold_index with
                           | Some i => Ok i
                           | None => Raise NameError
                           end ;;
                    fold <- index folds idx ;;
                    Ok ((filter (fun tfr => negb (mem (last_component tfr) fold)
                                            && mem (last_component tfr) logged_cases)
                                tfrecords,
                         filter (fun tfr => mem (last_component tfr) fold) tfrecords),
                        validation_log)
                end
              else new_k_fold_plan tfrecords plan
        end
    end
  else if String.eqb val_strategy "none" then
    Ok ((tfrecords, []), validation_log)
  else Ok (([], []), validation_log).

End PerSlide.

(** ** Vocabulary for the properties of plans *)

(** Where fold [i] of [split] starts: [i * k + min(i, m)]. *)
Definition cut (k m : Z) (i : nat) : nat :=
  Z.to_nat (Z.of_nat i * k + Z.min (Z.of_nat i) m).

(** Two plans with as many validation records and with folds of the same
    sizes. *)
Definition same_shape (p q : validation_plan) : Prop :=
  option_map (@length string) (fixed p) = option_map (@length string) (fixed q) /\
  option_map (map (@length string)) (k_fold_plan p)
  = option_map (map (@length string)) (k_fold_plan q).

(** Two k-fold plans over the same record names. *)
Definition same_names (p q : validation_plan) : Prop :=
  forall f g, k_fold_plan p = Some f -> k_fold_plan q = Some g ->
              Permutation (concat f) (concat g).

End Planner.

(* ================================================================== *)
(** * slideflow/project.py: resumability and the corruption retry *)
(* ================================================================== *)

Module Orchestrator.
Import Py.

Section SlideList.
(** [sfutil.path_to_name] lives outside the modelled files. *)
Variable path_to_name : string -> string.

(** The loop over the interrupted markers:
<<
  for interrupted_slide in interrupted:
      if interrupted_slide in already_extracted_tfrecords:
          del(already_extracted_tfrecords[already_extracted_tfrecords.index(interrupted_slide)])
>> *)
Definition drop_interrupted (interrupted already : list string) : list string :=
  fold_left (fun acc s => if mem s acc then del_first s acc else acc)
            interrupted already.

(** The slide list [extract_tiles] goes on to verify and enqueue, computed
    from the dataset's slide paths, the paths [get_tfrecords] returns and
    the ['*.unfinished'] markers found by [glob].  [None]: the function
    returned at "Either save_tiles or save_tfrecord must be true". *)
Definition extract_tiles (save_tiles save_tfrecord skip_extracted : bool)
           (slide_list tfrecords markers : list string) : option (list string) :=
  if negb save_tiles && negb save_tfrecord then None
  else if skip_extracted && save_tfrecord then
    let already_extracted_tfrecords := map path_to_name tfrecords in
    let interrupted := map path_to_name markers in
    let already_extracted_tfrecords :=
      if negb (length interrupted =? 0)
      then drop_interrupted interrupted already_extracted_tfrecords
      else already_extracted_tfrecords in
    Some (filter (fun slide =>
                    negb (mem (path_to_name slide) already_extracted_tfrecords))
                 slide_list)
  else Some slide_list.

(** The slides a run skips: those of the slide list it does not go on to
    process. *)
Definition skipped (processed slide_list : list string) : list string :=
  filter (fun slide => negb (mem slide processed)) slide_list.

End SlideList.

(** What one attempt at a slide does: the reader fails to load, the
    prediction is exported, or [whole_slide.predict] raises. *)
Inductive attempt : Type :=
| NotLoaded
| Exported
| Raises (e : exn).

(** What [predict_wsi] leaves in the log, in order. *)
Inductive event : Type :=
| Working (downsample : bool)    (* "Working on slide ..." : one attempt starts *)
| Pickled                        (* the grid was written to [export_dir] *)
| WarnRetry                      (* "will try re-extraction with downsampling disabled" *)
| ErrorSkip.                     (* "Corrupt tile in ...; skipping slide" *)

(** The local function [predict_wsi(slide_path, downsample)] of the method
    [predict_wsi].  [slide n d] is what the [n]-th
    attempt at the slide does when it reads with [enable_downsample = d].
    The function calls itself on corruption when [downsample] holds; [fuel]
    bounds the depth of that recursion. *)
Fixpoint predict_wsi (fuel : nat) (slide : nat -> bool -> attempt)
         (n : nat) (downsample : bool) (log : list event)
  : option (result unit * list event) :=
  match fuel with
  | O => None
  | S fuel' =>
      let log := log ++ [Working downsample] in
      match slide n downsample with
      | NotLoaded => Some (Ok tt, log)
      | Exported => Some (Ok tt, log ++ [Pickled])
      | Raises TileCorruptionError =>
          if downsample
          then predict_wsi fuel' slide (S n) false (log ++ [WarnRetry])
          else Some (Ok tt, log ++ [ErrorSkip])
      | Raises e => Some (Raise e, log)
      end
  end.


End Orchestrator.

(* ================================================================== *)
(** * slideflow/norm/torch/reinhard.py *)
(* ================================================================== *)

(** A uint8 RGB pixel, an image of [W] rows of [H] pixels, a batch of [B]
    images (the tensors are laid out B x W x H x C). *)
Definition rgb8 : Type := (Z * Z * Z)%type.
Definition image (A : Type) : Type := list (list A).
Definition batch (A : Type) : Type := list (image A).

(** The float32 tensor arithmetic of torch and the functions the module
    imports from [slideflow.norm.torch.color] and [.utils], none of which
    is part of the modelled file. *)
Class TorchOps : Type := {
  F : Type;                                  (* a float32 scalar *)
  of_int : Z -> F;                           (* int -> float32 *)
  fadd : F -> F -> F;
  fsub : F -> F -> F;
  fmul : F -> F -> F;
  fdiv : F -> F -> F;
  flt : F -> F -> bool;                      (* < *)
  truthy : F -> bool;                        (* bool(x) of a Python float *)
  tmean : list F -> F;                       (* torch.mean of all elements *)
  tstd : list F -> F;                        (* torch.std of all elements *)
  clip_0_255 : F -> F;                       (* torch.clip(., min=0, max=255) *)
  to_uint8 : F -> Z;                         (* .to(torch.uint8) *)
  rgb_to_lab : F * F * F -> F * F * F;       (* color.rgb_to_lab, per pixel *)
  lab_to_rgb : F * F * F -> F * F * F;       (* color.lab_to_rgb(., clip=False) *)
  clip_size : batch rgb8 -> Z -> batch rgb8  (* utils.clip_size *)
}.

Module Reinhard.
Local Open Scope py_scope.

(** Elementwise operations on nested lists. *)
Fixpoint map2 {A B C} (f : A -> B -> C) (a : list A) (b : list B) : list C :=
  match a, b with
  | x :: a', y :: b' => f x y :: map2 f a' b'
  | _, _ => []
  end.

Definition bmap {A B} (f : A -> B) : batch A -> batch B := map (map (map f)).

Definition bmap2 {A B C} (f : A -> B -> C) : batch A -> batch B -> batch C :=
  map2 (map2 (map2 f)).

(** All elements of an image, and of a batch, in storage order. *)
Definition flat {A} (img : image A) : list A := concat img.
Definition bflat {A} (I : batch A) : list A := concat (map flat I).

(** [f] applied to every image together with its index in the batch. *)
Definition imap {A B} (f : nat -> A -> B) (l : list A) : list B :=
  map2 f (seq 0 (length l)) l.

(** The element at image [b], row [w], column [h]. *)
Definition pixel_at {A} (I : batch A) (b w h : nat) : option A :=
  match nth_error I b with
  | Some img => match nth_error img w with
                | Some row => nth_error row h
                | None => None
                end
  | None => None
  end.

Section WithOps.
Context {ops : TorchOps}.

Definition F3 : Type := (F * F * F)%type.

(** Three rows of per-image statistics, one row per channel: a tensor of
    shape (3, k). *)
Definition stats : Type := (list F * list F * list F)%type.

(** [I = I.to(torch.float32); I /= 255] on one pixel. *)
Definition to_unit (p : rgb8) : F3 :=
  let '(r, g, b) := p in
  (fdiv (of_int r) (of_int 255), fdiv (of_int g) (of_int 255),
   fdiv (of_int b) (of_int 255)).

Definition lab_of (p : rgb8) : F3 := rgb_to_lab (to_unit p).

Definition ch1 (x : F3) : F := fst (fst x).
Definition ch2 (x : F3) : F := snd (fst x).
Definition ch3 (x : F3) : F := snd x.

(** [lab_split]: RGB uint8 to LAB, split into channels. *)
Definition lab_split (I : batch rgb8) : batch F * batch F * batch F :=
  let lab := bmap lab_of I in
  (bmap ch1 lab, bmap ch2 lab, bmap ch3 lab).

(** [merge_back]: stack the channels, convert to RGB, scale by 255. *)
Definition merge_back (I1 I2 I3 : batch F) : batch F3 :=
  bmap (fun lab => let '(r, g, b) := lab_to_rgb lab in
                   (fmul r (of_int 255), fmul g (of_int 255), fmul b (of_int 255)))
       (bmap2 (fun l ab => (l, fst ab, snd ab)) I1 (bmap2 pair I2 I3)).

(** [torch.all(I == 255, dim=3)] on one pixel. *)
Definition ones (p : rgb8) : bool :=
  let '(r, g, b) := p in ((r =? 255) && (g =? 255) && (b =? 255))%Z.

(** [X[~ones]]: the elements of [X] where the mask does not hold, in
    storage order. *)
Definition select_not {A} (mask : batch bool) (X : batch A) : list A :=
  map snd (filter (fun mx => negb (fst mx)) (combine (bflat mask) (bflat X))).

Definition get_masked_mean_std (I : batch rgb8) : stats * stats :=
  let ones := bmap ones I in
  let '(I1, I2, I3) := lab_split I in
  let I1 := select_not ones I1 in
  let I2 := select_not ones I2 in
  let I3 := select_not ones I3 in
  (([tmean I1], [tmean I2], [tmean I3]), ([tstd I1], [tstd I2], [tstd I3])).

(** [get_mean_std]: per image over both spatial dimensions; with [reduce]
    the per-image values are averaged (the 0-dimensional result is held
    as a one-element row). *)
Definition get_mean_std (I1 I2 I3 : batch F) (reduce : bool) : stats * stats :=
  let per f (X : batch F) := map (fun img => f (flat img)) X in
  let red (v : list F) := if reduce then [tmean v] else v in
  ((red (per tmean I1), red (per tmean I2), red (per tmean I3)),
   (red (per tstd I1), red (per tstd I2), red (per tstd I3))).

(** [v[:, None, None].expand(shape)] for [shape = (B, W, H)]: a row of one
    element is repeated, a row of [B] elements is kept, anything else is
    torch's RuntimeError. *)
Definition expand (v : list F) (B : nat) : result (list F) :=
  match v with
  | [x] => Ok (repeat x B)
  | _ => if length v =? B then Ok v else Raise RuntimeError
  end.

(** The local function [norm] of [transform]:
<<
    part1 = _I - _I_mean[:, None, None].expand(_I.shape)
    part2 = _tgt_std / _I_std
    part3 = part1 * part2[:, None, None].expand(part1.shape)
    return part3 + _tgt_mean
>> *)
Definition norm (_I : batch F) (_I_mean _I_std : list F) (_tgt_std _tgt_mean : F)
  : result (batch F) :=
  m <- expand _I_mean (length _I) ;;
  let part1 := map2 (fun mb img => map (map (fun x => fsub x mb)) img) m _I in
  let part2 := map (fdiv _tgt_std) _I_std in
  s <- expand part2 (length part1) ;;
  let part3 := map2 (fun sb img => map (map (fun x => fmul x sb)) img) s part1 in
  Ok (bmap (fun x => fadd x _tgt_mean) part3).

(** [torch.clip(merged, min=0, max=255).to(torch.uint8)] on one pixel. *)
Definition clip_uint8 (x : F3) : rgb8 :=
  let '(r, g, b) := x in
  (to_uint8 (clip_0_255 r), to_uint8 (clip_0_255 g), to_uint8 (clip_0_255 b)).

(** [torch.where(mask, a, b)] with [mask] of shape (B, W, H, 1). *)
Definition where_ {A} (mask : batch bool) (a b : batch A) : batch A :=
  bmap2 (fun (m : bool) ab => if m then fst ab else snd ab) mask (bmap2 pair a b).

(** [if mask_threshold:] *)
Definition threshold_set (mask_threshold : option F) : option F :=
  match mask_threshold with
  | Some t => if truthy t then Some t else None
  | None => None
  end.

(** The module-level [transform].  The target statistics have shape (3,),
    so [tgt_mean[c]] and [tgt_std[c]] are scalars; the context statistics
    have shape (3, k). *)
Definition transform (I : batch rgb8) (tgt_mean tgt_std : F3)
           (ctx_mean ctx_std : option stats) (mask_threshold : option F)
  : result (batch rgb8) :=
  match ctx_mean, ctx_std with
  | None, Some _ => Raise ValueError
  | Some _, None => Raise ValueError
  | _, _ =>
      let '(I1, I2, I3) := lab_split I in
      let '((I1_mean, I2_mean, I3_mean), (I1_std, I2_std, I3_std)) :=
        match ctx_mean, ctx_std with
        | Some m, Some s => (m, s)
        | _, _ => get_mean_std I1 I2 I3 false
        end in
      norm1 <- norm I1 I1_mean I1_std (ch1 tgt_std) (ch1 tgt_mean) ;;
      norm2 <- norm I2 I2_mean I2_std (ch2 tgt_std) (ch2 tgt_mean) ;;
      norm3 <- norm I3 I3_mean I3_std (ch3 tgt_std) (ch3 tgt_mean) ;;
      let merged := merge_back norm1 norm2 norm3 in
      let clipped := bmap clip_uint8 merged in
      match threshold_set mask_threshold with
      | Some t =>
          let mask := bmap (fun l => flt (fdiv l (of_int 100)) t) I1 in
          Ok (where_ mask clipped I)
      | None => Ok clipped
      end
  end.

(** The module-level [fit]. *)
Definition fit (target : batch rgb8) (reduce mask : bool) : result (stats * stats) :=
  if mask then Ok (get_masked_mean_std target)
  else let '(I1, I2, I3) := lab_split target in Ok (get_mean_std I1 I2 I3 reduce).

(** ** ReinhardFastNormalizer *)

Record normalizer : Type := {
  target_means : F3;
  target_stds : F3;
  _ctx_means : option stats;
  _ctx_stds : option stats;
  threshold : option F
}.

(** A method call: its outcome and the object it leaves. *)
Definition method (A : Type) : Type := normalizer -> result A * normalizer.

(** An image argument is a single W x H x C image or a batch. *)
Inductive image_arg : Type :=
| Single (img : image rgb8)
| Batch (Ib : batch rgb8).

Definition _get_context_means (self : normalizer) (ctx_means ctx_stds : option stats)
  : option stats * option stats :=
  match _ctx_means self, _ctx_stds self with
  | Some m, Some s => (Some m, Some s)
  | _, _ => (ctx_means, ctx_stds)
  end.

Definition set_context (I : image_arg) : method unit := fun self =>
  let I := match I with Single img => [img] | Batch Ib => Ib end in
  let I := clip_size I 2048 in
  let '(means, stds) := get_masked_mean_std I in
  (Ok tt, {| target_means := target_means self; target_stds := target_stds self;
             _ctx_means := Some means; _ctx_stds := Some stds;
             threshold := threshold self |}).

Definition clear_context : method unit := fun self =>
  (Ok tt, {| target_means := target_means self; target_stds := target_stds self;
             _ctx_means := None; _ctx_stds := None;
             threshold := threshold self |}).

(** [ReinhardFastNormalizer.transform]; a single image is batched and the
    first element of the result returned. *)
Definition normalizer_transform (I : image_arg) (ctx_means ctx_stds : option stats)
  : method image_arg := fun self =>
  let '(_ctx_means, _ctx_stds) := _get_context_means self ctx_means ctx_stds in
  match I with
  | Single img =>
      (out <- transform [img] (target_means self) (target_stds self)
                        _ctx_means _ctx_stds (threshold self) ;;
       match out with
       | o :: _ => Ok (Single o)
       | [] => Raise IndexError
       end, self)
  | Batch Ib =>
      (out <- transform Ib (target_means self) (target_stds self)
                        _ctx_means _ctx_stds (threshold self) ;;
       Ok (Batch out), self)
  end.

(** ** Vocabulary for the properties of [fit] and [transform] *)

(** The rescaling of the specification on one channel value:
    [(pixel - source_mean) * (target_std / source_std) + target_mean]. *)
Definition rescale (x src_mean src_std tgt_std tgt_mean : F) : F :=
  fadd (fmul (fsub x src_mean) (fdiv tgt_std src_std)) tgt_mean.

(** A LAB pixel converted back to RGB, scaled to [0, 255], clamped and cast to
    8 bits. *)
Definition to_rgb8 (lab : F3) : rgb8 :=
  clip_uint8 (let '(r, g, b) := lab_to_rgb lab in
              (fmul r (of_int 255), fmul g (of_int 255), fmul b (of_int 255))).

(** One pixel rescaled channel by channel from source to target statistics. *)
Definition normalize_pixel (tgt_mean tgt_std src_mean src_std : F3) (p : rgb8) : rgb8 :=
  let lab := lab_of p in
  to_rgb8 (rescale (ch1 lab) (ch1 src_mean) (ch1 src_std) (ch1 tgt_std) (ch1 tgt_mean),
           rescale (ch2 lab) (ch2 src_mean) (ch2 src_std) (ch2 tgt_std) (ch2 tgt_mean),
           rescale (ch3 lab) (ch3 src_mean) (ch3 src_std) (ch3 tgt_std) (ch3 tgt_mean)).

(** The values of one LAB channel over an image, and the image's own
    statistics. *)
Definition channel (c : F3 -> F) (img : image rgb8) : list F :=
  flat (map (map (fun p => c (lab_of p))) img).

Definition image_mean (img : image rgb8) : F3 :=
  (tmean (channel ch1 img), tmean (channel ch2 img), tmean (channel ch3 img)).

Definition image_std (img : image rgb8) : F3 :=
  (tstd (channel ch1 img), tstd (channel ch2 img), tstd (channel ch3 img)).

(** A row of a (3, k) tensor as image [b] of a batch sees it once expanded,
    and the rows that expand to a batch of [B] images. *)
Definition row_at (v : list F) (b : nat) : F :=
  match v with
  | [x] => x
  | _ => nth b v (of_int 0)
  end.

Definition stats_at (s : stats) (b : nat) : F3 :=
  (row_at (fst (fst s)) b, row_at (snd (fst s)) b, row_at (snd s) b).

Definition broadcastable (v : list F) (B : nat) : Prop :=
  length v = 1 \/ length v = B.

Definition stats_fit (s : stats) (B : nat) : Prop :=
  broadcastable (fst (fst s)) B /\ broadcastable (snd (fst s)) B /\
  broadcastable (snd s) B.

(** A context that expands to the batch, the absence of one, and the source
    statistics image [b] is rescaled from in either case. *)
Definition context_fits (ctx_mean ctx_std : option stats) (B : nat) : Prop :=
  match ctx_mean, ctx_std with
  | Some m, Some s => stats_fit m B /\ stats_fit s B
  | None, None => True
  | _, _ => False
  end.

Definition source_mean (I : batch rgb8) (ctx_mean : option stats) (b : nat) : F3 :=
  match ctx_mean with
  | Some m => stats_at m b
  | None => image_mean (nth b I [])
  end.

Definition source_std (I : batch rgb8) (ctx_std : option stats) (b : nat) : F3 :=
  match ctx_std with
  | Some s => stats_at s b
  | None => image_std (nth b I [])
  end.

(** The quantity the mask compares with the threshold: [I1 / 100]. *)
Definition lightness_fraction (p : rgb8) : F :=
  fdiv (ch1 (lab_of p)) (of_int 100).

(** The pixels [get_masked_mean_std] keeps, in storage order. *)
Definition foreground (I : batch rgb8) : list rgb8 :=
  filter (fun p => negb (ones p)) (bflat I).

End WithOps.

(** ** Generator-based context managers

    A generator function whose body is [before; yield; after] with the
    [yield] outside any [try], decorated with [contextlib.contextmanager]. *)
Record generator_cm (S : Type) : Type := {
  before_yield : S -> result unit * S;
  after_yield : S -> result unit * S
}.

(** [with cm: body], as [contextlib] defines [__enter__] and [__exit__]:
    entering runs the generator up to its [yield]; leaving normally resumes
    it after the [yield]; leaving by an exception throws that exception into
    the generator at the [yield], where no handler encloses it, so the
    generator ends there and the exception propagates. *)
Definition with_cm {S A} (cm : generator_cm S) (body : S -> result A * S)
  : S -> result A * S := fun s =>
  match before_yield cm s with
  | (Raise e, s1) => (Raise e, s1)
  | (Ok _, s1) =>
      match body s1 with
      | (Ok a, s2) =>
          match after_yield cm s2 with
          | (Ok _, s3) => (Ok a, s3)
          | (Raise e, s3) => (Raise e, s3)
          end
      | (Raise e, s2) => (Raise e, s2)
      end
  end.

(** [ReinhardFastNormalizer.image_context]:
<<
      @contextmanager
      def image_context(self, I):
          self.set_context(I)
          yield
          self.clear_context()
>> *)
Definition image_context {ops : TorchOps} (I : image_arg) : generator_cm normalizer :=
  {| before_yield := set_context I; after_yield := clear_context |}.

End Reinhard.

(* ================================================================== *)
(** * A reference instance of the tensor arithmetic *)
(* ================================================================== *)

(** IEEE-754 arithmetic on Rocq's primitive binary64 floats, with the special
    values torch's float32 has: a quotient by zero is an infinity or NaN, and
    NaN propagates.  The color conversion is a linear stand-in for the
    [color] module (lightness is the scaled channel average), and images are
    taken to be below the size [clip_size] clips to. *)
Module IEEE.
Import PrimFloat.
Local Open Scope float_scope.

Definition of_Z (z : Z) : float :=
  if (z <? 0)%Z then - of_uint63 (Uint63.of_Z (- z)) else of_uint63 (Uint63.of_Z z).

Definition fsum (l : list float) : float := fold_left add l 0.

(** [torch.mean]: NaN on an empty tensor. *)
Definition mean (l : list float) : float :=
  fsum l / of_Z (Z.of_nat (length l)).

(** [torch.std] (unbiased, the sum of squares over [max(0, N - 1)]): NaN on
    fewer than two elements. *)
Definition std (l : list float) : float :=
  let m := mean l in
  sqrt (fsum (map (fun x => (x - m) * (x - m)) l)
        / of_Z (Z.max 0 (Z.of_nat (length l) - 1))).

Definition nonzero (x : float) : bool := negb (x =? 0).

Definition clip (x : float) : float :=
  if x <? 0 then 0 else if 255 <? x then 255 else x.

(** Truncation of a clipped value: the number of [k] in [1 .. 255] with
    [k <= x]; NaN compares false and gives 0. *)
Definition trunc_uint8 (x : float) : Z :=
  Z.of_nat (length (filter (fun k => of_Z (Z.of_nat k) <=? x) (seq 1 255))).

Definition to_lab (p : float * float * float) : float * float * float :=
  let '(r, g, b) := p in
  (100 * ((r + g + b) / 3), 100 * (r - g), 100 * (g - b)).

Definition to_rgb (p : float * float * float) : float * float * float :=
  let '(l, a, b) := p in
  let g := (3 * (l / 100) - a / 100 + b / 100) / 3 in
  (g + a / 100, g, g - b / 100).

Definition ops : TorchOps :=
  {| F := float;
     of_int := of_Z;
     fadd := add; fsub := sub; fmul := mul; fdiv := div;
     flt := ltb;
     truthy := nonzero;
     tmean := mean;
     tstd := std;
     clip_0_255 := clip;
     to_uint8 := trunc_uint8;
     rgb_to_lab := to_lab;
     lab_to_rgb := to_rgb;
     clip_size := fun I _ => I |}.

(** Sample inputs: a tile of three distinct pixels, a tile of one uniform
    color, a tile of pure background, and a target fit. *)
Definition white : rgb8 := (255, 255, 255)%Z.
Definition brown : rgb8 := (200, 100, 50)%Z.
Definition black : rgb8 := (0, 0, 0)%Z.
Definition grey : rgb8 := (10, 10, 10)%Z.

Definition tile : batch rgb8 := [[[white; brown; black]]].
Definition uniform_tile : batch rgb8 := [[[grey; grey]]].
Definition blank_tile : batch rgb8 := [[[white; white]]].

Definition target_mean : float * float * float := (of_Z 50, of_Z 5, of_Z 5).
Definition target_std : float * float * float := (of_Z 10, of_Z 2, of_Z 2).

(** Thresholds. *)
Definition half : float := of_Z 1 / of_Z 2.

End IEEE.
(* ================================================================== *)
(** * slideflow/__init__.py: GPU locks, model selection, fold selection *)
(* ================================================================== *)

Module Init.
Import Py.
Local Open Scope py_scope.

(** ** GPU lock files

    The lock files [gpu<n>.lock] of the source directory, shared by every
    running instance, the global [GPU_LOCK] of one instance, and the
    environment variable CUDA_VISIBLE_DEVICES, held as the number it
    prints. *)
Record gpu_state : Type := {
  lock_file : Z -> bool;
  GPU_LOCK : option Z;
  CUDA_VISIBLE_DEVICES : option Z
}.

(** The body of the loop of [autoselect_gpu] over the GPUs left to try;
    running out of them is the "No free GPUs detected" error message. *)
Fixpoint autoselect_from (ns : list Z) (st : gpu_state) : gpu_state :=
  match ns with
  | [] => st
  | n :: ns' =>
      if negb (lock_file st n)
      then {| lock_file := fun m => (m =? n)%Z || lock_file st m;
              GPU_LOCK := Some n;
              CUDA_VISIBLE_DEVICES := Some n |}
      else autoselect_from ns' st
  end.

(** [autoselect_gpu(number_available)] *)
Definition autoselect_gpu (number_available : Z) (st : gpu_state) : gpu_state :=
  autoselect_from (range number_available) st.

(** [select_gpu(number)] *)
Definition select_gpu (number : Z) (st : gpu_state) : gpu_state :=
  {| lock_file := lock_file st;
     GPU_LOCK := Some number;
     CUDA_VISIBLE_DEVICES := Some number |}.

(** [exit_script()], registered with [atexit]. *)
Definition exit_script (st : gpu_state) : gpu_state :=
  match GPU_LOCK st with
  | Some n =>
      if lock_file st n
      then {| lock_file := fun m => negb (m =? n)%Z && lock_file st m;
              GPU_LOCK := GPU_LOCK st;
              CUDA_VISIBLE_DEVICES := CUDA_VISIBLE_DEVICES st |}
      else st
  | None => st
  end.

(** The state another instance starts in: the same lock files, no lock of
    its own. *)
Definition other_instance (st : gpu_state) : gpu_state :=
  {| lock_file := lock_file st; GPU_LOCK := None; CUDA_VISIBLE_DEVICES := None |}.

(** ** [_get_valid_models]

    The [models] argument: [None], one name, or a list of names. *)
Inductive models_arg : Type :=
| ModelsNone
| ModelsStr (s : string)
| ModelsList (l : list string).

(** [a in b] for two strings: [a] occurs in [b]. *)
Fixpoint occurs_in (a b : string) : bool :=
  String.prefix a b
  || match b with
     | EmptyString => false
     | String _ b' => occurs_in a b'
     end.

(** [(not models) or (type(models)==str and model_name==models) or
    model_name in models] *)
Definition requested (models : models_arg) (model_name : string) : bool :=
  match models with
  | ModelsNone => true
  | ModelsStr s =>
      String.eqb s "" || String.eqb model_name s || occurs_in model_name s
  | ModelsList l =>
      match l with
      | [] => true
      | _ => mem model_name l
      end
  end.

(** [header.index('model_name')] *)
Fixpoint index_of (x : string) (l : list string) : option nat :=
  match l with
  | [] => None
  | y :: l' => if String.eqb y x then Some 0
               else option_map S (index_of x l')
  end.

(** The loop over the rows after the header. *)
Fixpoint scan_rows (rows : list (list string)) (model_name_i : nat)
         (models : models_arg) (models_to_train : list string)
  : result (list string) :=
  match rows with
  | [] => Ok models_to_train
  | row :: rows' =>
      model_name <- index row (Z.of_nat model_name_i) ;;
      if requested models model_name
      then if mem model_name models_to_train
           then Raise SystemExit
           else scan_rows rows' model_name_i models (models_to_train ++ [model_name])
      else scan_rows rows' model_name_i models models_to_train
  end.

(** [_get_valid_models], from the first row of the tab-separated file and the
    rows after it. *)
Definition _get_valid_models (header : list string) (rows : list (list string))
           (models : models_arg) : result (list string) :=
  match index_of "model_name" header with
  | None => Raise SystemExit
  | Some model_name_i => scan_rows rows model_name_i models []
  end.

(** ** The folds [train] trains

    The [k_fold_iter] argument: [None], one number, or a list. *)
Inductive k_fold_iter_arg : Type :=
| IterNone
| IterInt (k : Z)
| IterList (l : list Z).

(** [k_fold_iter = [k_fold_iter] if (k_fold_iter != None and
    type(k_fold_iter) != list) else k_fold_iter] *)
Definition as_list (k_fold_iter : k_fold_iter_arg) : option (list Z) :=
  match k_fold_iter with
  | IterNone => None
  | IterInt k => Some [k]
  | IterList l => Some l
  end.

(** [k_fold = validation_k_fold if validation_strategy in ('k-fold',
    'bootstrap') else 0] *)
Definition train_k_fold (validation_strategy : string) (validation_k_fold : Z) : Z :=
  if String.eqb validation_strategy "k-fold" || String.eqb validation_strategy "bootstrap"
  then validation_k_fold else 0%Z.

(** [valid_k = [] if not k_fold else [kf for kf in range(k_fold) if
    ((k_fold_iter and kf in k_fold_iter) or (not k_fold_iter))]] *)
Definition valid_k (k_fold : Z) (k_fold_iter : k_fold_iter_arg) : list Z :=
  if (k_fold =? 0)%Z then []
  else filter (fun kf => match as_list k_fold_iter with
                         | Some ((_ :: _) as l) => existsb (Z.eqb kf) l
                         | _ => true
                         end)
              (range k_fold).

(** The [k_fold_i] of the [trainer] processes [train] starts for one model,
    in order: one per valid fold, numbered from 1, or a single call without
    a fold when no k-fold validation is in force. *)
Definition trainer_calls (validation_strategy : string) (validation_k_fold : Z)
           (k_fold_iter : k_fold_iter_arg) : list (option Z) :=
  let k_fold := train_k_fold validation_strategy validation_k_fold in
  if (k_fold =? 0)%Z then [None]
  else map (fun k => Some (k + 1)%Z) (valid_k k_fold k_fold_iter).

End Init.

(* ================================================================== *)
(** * slideflow/project.py: the sequential prediction loop *)
(* ================================================================== *)

Module Project.
Import Orchestrator.

(** The loop of the method [predict_wsi] when no worker threads are used:
<<
    for slide_path in slide_list:
        predict_wsi(slide_path, enable_downsample)
>>
    Each slide comes with what its attempts do; an exception that leaves a
    call ends the loop. *)
Fixpoint predict_slides (fuel : nat) (slide_list : list (nat -> bool -> attempt))
         (enable_downsample : bool) (log : list event)
  : option (result unit * list event) :=
  match slide_list with
  | [] => Some (Ok tt, log)
  | slide :: slide_list' =>
      match predict_wsi fuel slide 0 enable_downsample log with
      | Some (Ok _, log') => predict_slides fuel slide_list' enable_downsample log'
      | Some (Raise e, log') => Some (Raise e, log')
      | None => None
      end
  end.


End Project.


(* ================================================================== *)
(** * Scopes and shapes of the normaliser *)
(* ================================================================== *)

Module ReinhardScopes.
Import Reinhard.

(** The batch an image argument stands for: [torch.unsqueeze(I, dim=0)] when
    [len(I.shape) == 3]. *)
Definition batch_of (X : image_arg) : batch rgb8 :=
  match X with Single img => [img] | Batch Ib => Ib end.


(** What [transform] makes of pixel [p] of image [b] of the batch [I]: the
    rescaled pixel, or with a threshold that is set the pixel itself unless
    its lightness fraction is below the threshold. *)
Definition pixel_fn {ops : TorchOps} (I : batch rgb8) (tm ts : F3)
           (cm cs : option stats) (thr : option F) (b : nat) (p : rgb8) : rgb8 :=
  let q := normalize_pixel tm ts (source_mean I cm b) (source_std I cs b) p in
  match threshold_set thr with
  | Some t => if flt (lightness_fraction p) t then q else p
  | None => q
  end.

(** Two statements in sequence on the same object: the second runs when the
    first returns, and an exception of the first ends the sequence. *)
Definition then_ {S A B} (first : S -> result A * S) (next : S -> result B * S)
  : S -> result B * S := fun s =>
  match first s with
  | (Ok _, s1) => next s1
  | (Raise e, s1) => (Raise e, s1)
  end.

End ReinhardScopes.
(* ================================================================== *)
(** * Properties of the validation planner *)
(* ================================================================== *)

Module PlannerFacts.
Import Py Planner.

(** ** Slices *)

Lemma firstn_cut A (a : list A) (p q : nat) :
  p <= q -> firstn p a ++ firstn (q - p) (skipn p a) = firstn q a.
Proof.
  intros Hpq.
  rewrite <- (firstn_skipn p (firstn q a)).
  rewrite firstn_firstn, skipn_firstn_comm.
  now rewrite Nat.min_l by exact Hpq.
Qed.

(** Consecutive pieces between non-decreasing cut points rebuild a prefix. *)
Lemma concat_cuts A (a : list A) (c : nat -> nat) (n : nat) :
  c 0 = 0 ->
  (forall i, i < n -> c i <= c (S i)) ->
  concat (map (fun i => firstn (c (S i) - c i) (skipn (c i) a)) (seq 0 n))
  = firstn (c n) a.
Proof.
  intros H0. induction n as [|n IH]; intros Hmono.
  - simpl. now rewrite H0.
  - rewrite seq_S, map_app, concat_app. simpl.
    rewrite IH by (intros i Hi; apply Hmono; lia).
    rewrite app_nil_r. apply firstn_cut. apply Hmono. lia.
Qed.

Lemma slice_inside A (a : list A) (lo hi : Z) :
  (0 <= lo <= hi)%Z -> (hi <= Z.of_nat (length a))%Z ->
  slice a lo hi = firstn (Z.to_nat hi - Z.to_nat lo) (skipn (Z.to_nat lo) a).
Proof.
  intros Hlo Hhi. unfold slice, adjust.
  destruct (Z.ltb_spec lo 0); [lia|].
  destruct (Z.ltb_spec hi 0); [lia|].
  rewrite !Z.min_l by lia.
  now rewrite Z2Nat.inj_sub by lia.
Qed.

(** ** The cut points of [split] *)

Lemma split_eq_cuts A (a : list A) (n : Z) :
  (1 <= n)%Z ->
  let k := (Z.of_nat (length a) / n)%Z in
  let m := (Z.of_nat (length a) mod n)%Z in
  split a n
  = Ok (map (fun i => firstn (cut k m (S i) - cut k m i) (skipn (cut k m i) a))
            (seq 0 (Z.to_nat n))).
Proof.
  intros Hn k m. unfold split.
  destruct (Z.eqb_spec n 0); [lia|]. fold k m. f_equal.
  unfold range. rewrite map_map. apply map_ext_in.
  intros i Hi. apply in_seq in Hi.
  assert (Hk : (0 <= k)%Z) by (apply Z.div_pos; lia).
  assert (Hm : (0 <= m < n)%Z) by (apply Z.mod_pos_bound; lia).
  assert (Hlen : (Z.of_nat (length a) = n * k + m)%Z)
    by (apply Z.div_mod; lia).
  unfold cut. rewrite Nat2Z.inj_succ, <- Z.add_1_r.
  apply slice_inside; nia.
Qed.

Lemma cut_step (k m : Z) (i : nat) :
  (0 <= k)%Z -> (0 <= m)%Z ->
  Z.of_nat (cut k m (S i) - cut k m i)
  = (k + (if Z.of_nat i <? m then 1 else 0))%Z.
Proof.
  intros Hk Hm. unfold cut.
  rewrite Nat2Z.inj_sub by (apply Z2Nat.inj_le; nia).
  rewrite !Z2Nat.id by nia.
  destruct (Z.ltb_spec (Z.of_nat i) m); nia.
Qed.

Lemma NoDup_app_disjoint A (l1 l2 : list A) (x : A) :
  NoDup (l1 ++ l2) -> In x l1 -> In x l2 -> False.
Proof.
  induction l1 as [|a l1 IH]; simpl; intros Hnd H1 H2; [contradiction|].
  inversion Hnd as [|? ? Hnotin Hnd']; subst.
  destruct H1 as [->|H1].
  - apply Hnotin, in_or_app. now right.
  - now apply IH.
Qed.

Lemma in_nth_concat A (ls : list (list A)) (p : nat) (x : A) :
  In x (nth p ls []) -> In x (concat ls).
Proof.
  intros Hp. apply in_concat. exists (nth p ls []). split; [|exact Hp].
  destruct (Nat.lt_ge_cases p (length ls)) as [Hlt|Hge].
  - now apply nth_In.
  - rewrite nth_overflow in Hp by exact Hge. contradiction.
Qed.

(** Elements of a duplicate-free concatenation belong to one piece only. *)
Lemma NoDup_concat_once A (ls : list (list A)) :
  NoDup (concat ls) ->
  forall i j x, In x (nth i ls []) -> In x (nth j ls []) -> i = j.
Proof.
  induction ls as [|l ls IH]; simpl; intros Hnd i j x Hi Hj.
  - destruct i; contradiction.
  - destruct i as [|i], j as [|j]; trivial.
    + exfalso. apply (NoDup_app_disjoint _ _ x Hnd Hi).
      now apply (in_nth_concat ls j).
    + exfalso. apply (NoDup_app_disjoint _ _ x Hnd Hj).
      now apply (in_nth_concat ls i).
    + f_equal. apply (IH (NoDup_app_remove_l _ _ Hnd) i j x Hi Hj).
Qed.

(** ** What [split] returns *)

Lemma split_spec A (a : list A) (n : Z) :
  (1 <= n)%Z ->
  exists folds,
    split a n = Ok folds /\
    length folds = Z.to_nat n /\
    concat folds = a /\
    (forall i, i < Z.to_nat n ->
       Z.of_nat (length (nth i folds []))
       = (Z.of_nat (length a) / n
          + (if Z.of_nat i <? Z.of_nat (length a) mod n then 1 else 0))%Z).
Proof.
  intros Hn.
  set (k := (Z.of_nat (length a) / n)%Z).
  set (m := (Z.of_nat (length a) mod n)%Z).
  assert (Hk : (0 <= k)%Z) by (apply Z.div_pos; lia).
  assert (Hm : (0 <= m < n)%Z) by (apply Z.mod_pos_bound; lia).
  assert (Hlen : (Z.of_nat (length a) = n * k + m)%Z) by (apply Z.div_mod; lia).
  assert (Hmono : forall i, cut k m i <= cut k m (S i)).
  { intros i. unfold cut. apply Z2Nat.inj_le; nia. }
  assert (Hbound : forall i, i <= Z.to_nat n -> cut k m i <= length a).
  { intros i Hi. unfold cut. nia. }
  eexists. split; [apply split_eq_cuts; exact Hn|]. fold k m.
  split; [now rewrite length_map, length_seq|].
  split.
  - rewrite concat_cuts.
    + replace (cut k m (Z.to_nat n)) with (length a); [apply firstn_all|].
      unfold cut. rewrite Z2Nat.id by lia. nia.
    + unfold cut. simpl. now rewrite Z.min_l by lia.
    + intros i _. apply Hmono.
  - intros i Hi.
    rewrite (nth_indep _ [] (firstn (cut k m 1 - cut k m 0) (skipn (cut k m 0) a)))
      by now rewrite length_map, length_seq.
    rewrite (map_nth (fun i => firstn (cut k m (S i) - cut k m i) (skipn (cut k m i) a))).
    rewrite seq_nth by exact Hi. simpl (0 + i).
    rewrite length_firstn, length_skipn, Nat.min_l.
    + apply cut_step; lia.
    + specialize (Hbound (S i)). specialize (Hmono i). lia.
Qed.

(** ** [shuffle] permutes *)

Lemma set_item_perm A (l : list A) (i : nat) (a b : A) :
  nth_error l i = Some a -> Permutation (a :: set_item l i b) (b :: l).
Proof.
  revert i. induction l as [|y l IH]; intros [|i]; simpl; try discriminate.
  - intros [= ->]. apply perm_swap.
  - intros Hi.
    apply perm_trans with (y :: a :: set_item l i b); [apply perm_swap|].
    apply perm_trans with (y :: b :: l); [|apply perm_swap].
    apply perm_skip. now apply IH.
Qed.

Lemma nth_error_set_item A (l : list A) (i j : nat) (a b : A) :
  nth_error l j = Some a ->
  nth_error (set_item l i b) j = Some (if i =? j then b else a).
Proof.
  revert i j. induction l as [|y l IH]; intros [|i] [|j]; simpl; try discriminate;
    try (intros [= ->]; reflexivity); auto.
Qed.

Lemma swap_perm A (x : list A) (i j : nat) : Permutation (swap x i j) x.
Proof.
  unfold swap.
  destruct (nth_error x i) as [xi|] eqn:Hi; [|reflexivity].
  destruct (nth_error x j) as [xj|] eqn:Hj; [|reflexivity].
  apply Permutation_cons_inv with (a := xj).
  apply perm_trans with (xi :: set_item x i xj).
  - apply set_item_perm.
    erewrite nth_error_set_item by exact Hj.
    now destruct (i =? j).
  - now apply set_item_perm.
Qed.

Lemma shuffle_from_perm A (rand : nat -> nat) (i : nat) (x : list A) :
  Permutation (shuffle_from rand i x) x.
Proof.
  revert x. induction i as [|i IH]; intros x; simpl; [reflexivity|].
  eapply perm_trans; [apply IH | apply swap_perm].
Qed.

Lemma shuffle_perm A (rand : nat -> nat) (x : list A) :
  Permutation (shuffle rand x) x.
Proof. apply shuffle_from_perm. Qed.

(** ** New plans *)

Lemma length_slice A B (a : list A) (b : list B) (lo hi : Z) :
  length a = length b -> length (slice a lo hi) = length (slice b lo hi).
Proof.
  intros H. unfold slice. rewrite !length_firstn, !length_skipn. now rewrite H.
Qed.

Lemma index_nth A (l : list A) (k : nat) (d : A) :
  k < length l -> index l (Z.of_nat k) = Ok (nth k l d).
Proof.
  intros Hk. unfold index.
  destruct (Z.ltb_spec (Z.of_nat k) 0); [lia|].
  destruct (Z.ltb_spec (Z.of_nat k) 0); [lia|].
  rewrite Nat2Z.id.
  destruct (nth_error l k) as [x|] eqn:E.
  - now rewrite (nth_error_nth _ _ d E).
  - apply nth_error_None in E. lia.
Qed.

(** The loop visits the folds in order and logs the names of each. *)
Lemma k_fold_loop_ok (idx : Z) (split_records : list (list string)) :
  forall (len s : nat) (training validation : list string) (folds : list (list string)),
    s + len <= length split_records ->
    exists training' validation',
      k_fold_loop (map Z.of_nat (seq s len)) (Some idx) split_records
                  training validation folds
      = Ok (training', validation',
            folds ++ map (fun k => map last_component (nth k split_records []))
                         (seq s len)).
Proof.
  induction len as [|len IH]; intros s training validation folds Hs; simpl.
  - exists training, validation. now rewrite app_nil_r.
  - rewrite (index_nth _ []) by lia. simpl.
    edestruct (IH (S s)) as (t' & v' & Heq); [lia|].
    rewrite Heq. exists t', v'. now rewrite <- app_assoc.
Qed.

Lemma map_nth_seq A B (f : A -> B) (l : list A) (d : A) :
  map (fun k => f (nth k l d)) (seq 0 (length l)) = map f l.
Proof.
  rewrite <- (map_map (fun k => nth k l d) f). f_equal.
  apply nth_ext with (d := d) (d' := d).
  - now rewrite length_map, length_seq.
  - intros n Hn. rewrite length_map, length_seq in Hn.
    rewrite (nth_indep _ d (nth 0 l d)) by now rewrite length_map, length_seq.
    rewrite (map_nth (fun k => nth k l d)), seq_nth by exact Hn. reflexivity.
Qed.

Section NewPlans.
Variables (globbed subdirs slide_list : list string).
Variables (num_val_of : nat -> Z) (k_fold : Z) (k_fold_iter : option Z).

Lemma new_k_fold_plan_ok (it : Z) (tfrecords : list string) (plan : validation_plan) :
  (1 <= k_fold)%Z -> k_fold_iter = Some it -> it <> 0%Z ->
  exists folds training validation,
    split tfrecords k_fold = Ok folds /\
    new_k_fold_plan k_fold k_fold_iter tfrecords plan
    = Ok ((training, validation),
          Some {| fixed := fixed plan;
                  k_fold_plan := Some (map (map last_component) folds) |}).
Proof.
  intros Hk Hit Hnz.
  destruct (split_spec tfrecords Hk) as (folds & Hsplit & Hlen & _).
  unfold new_k_fold_plan. rewrite Hsplit. simpl.
  unfold k_fold_index. rewrite Hit.
  destruct (Z.eqb_spec it 0); [contradiction|].
  unfold range. rewrite <- Hlen.
  destruct (k_fold_loop_ok (it - 1) folds (length folds) 0 [] [] [])
    as (t' & v' & Heq); [lia|].
  rewrite Heq. simpl. rewrite map_nth_seq.
  now exists folds, t', v'.
Qed.

End NewPlans.

Lemma split_lengths A B (a : list A) (b : list B) (n : Z) fa fb :
  (1 <= n)%Z -> length a = length b ->
  split a n = Ok fa -> split b n = Ok fb ->
  map (@length A) fa = map (@length B) fb.
Proof.
  intros Hn Hab Ha Hb.
  rewrite (split_eq_cuts a Hn) in Ha. rewrite (split_eq_cuts b Hn) in Hb.
  injection Ha as <-. injection Hb as <-.
  rewrite !map_map, Hab. apply map_ext. intros i.
  now rewrite !length_firstn, !length_skipn, Hab.
Qed.


(** ** C1 *)

(** C1, as the code has it.  [shuffle] reorders the records before a fixed
    or k-fold plan is drawn, so two generations without a persisted plan
    agree exactly when the shuffle leaves the records in the same order;
    whatever the shuffle does, both generations succeed, their plans have
    the same number of validation records and the same fold sizes, and the
    folds of both hold the same record names. *)
Theorem new_plans_agree_up_to_shuffle
        (globbed slide_list : list string) (val_strategy : string)
        (num_val_of : nat -> Z) (k_fold : Z) (k_fold_iter : option Z) (it : Z)
        (rand1 rand2 : nat -> nat) :
  val_strategy = "fixed"%string \/
  (val_strategy = "k-fold"%string /\ (1 <= k_fold)%Z /\
   k_fold_iter = Some it /\ it <> 0%Z) ->
  let run rand :=
    get_training_and_validation_tfrecords
      globbed [] slide_list val_strategy num_val_of k_fold k_fold_iter rand None in
  exists tv1 tv2 plan1 plan2,
    run rand1 = Ok (tv1, Some plan1) /\
    run rand2 = Ok (tv2, Some plan2) /\
    (shuffled_tfrecords globbed slide_list rand1
     = shuffled_tfrecords globbed slide_list rand2 -> tv1 = tv2 /\ plan1 = plan2) /\
    same_shape plan1 plan2 /\ same_names plan1 plan2.
Proof.
  intros Hs run. subst run. unfold get_training_and_validation_tfrecords.
  set (s1 := shuffled_tfrecords globbed slide_list rand1).
  set (s2 := shuffled_tfrecords globbed slide_list rand2).
  assert (Hperm : Permutation s1 s2).
  { unfold s1, s2, shuffled_tfrecords.
    eapply perm_trans; [apply shuffle_perm|]. symmetry. apply shuffle_perm. }
  pose proof (Permutation_length Hperm) as Hlen.
  destruct Hs as [-> | (-> & Hk & Hit & Hnz)]; simpl.
  - unfold new_fixed_plan. do 4 eexists.
    split; [reflexivity|]. split; [reflexivity|].
    split; [intros ->; now split|].
    split; [|intros f g; discriminate].
    split; [|reflexivity]. simpl. f_equal.
    rewrite !length_map, Hlen. now apply length_slice.
  - destruct (new_k_fold_plan_ok (k_fold_iter := k_fold_iter) s1 empty_plan Hk Hit Hnz)
      as (f1 & t1 & v1 & Hf1 & E1).
    destruct (new_k_fold_plan_ok (k_fold_iter := k_fold_iter) s2 empty_plan Hk Hit Hnz)
      as (f2 & t2 & v2 & Hf2 & E2).
    rewrite E1, E2. do 4 eexists.
    split; [reflexivity|]. split; [reflexivity|].
    split.
    { intros Heq. rewrite Heq in E1. rewrite E1 in E2.
      injection E2 as -> -> ->. now split. }
    split.
    + split; [reflexivity|]. simpl. f_equal.
      rewrite !map_map.
      rewrite (map_ext (fun x => length (map last_component x)) (@length string))
        by (intros; apply length_map).
      rewrite (map_ext (fun x : list string => length (map last_component x))
                       (@length string)) by (intros; apply length_map).
      exact (split_lengths s1 s2 Hk Hlen Hf1 Hf2).
    + intros f g [= <-] [= <-]. rewrite <- !concat_map.
      apply Permutation_map.
      destruct (split_spec s1 Hk) as (f1' & Hf1' & _ & Hc1 & _).
      destruct (split_spec s2 Hk) as (f2' & Hf2' & _ & Hc2 & _).
      rewrite Hf1 in Hf1'. injection Hf1' as <-.
      rewrite Hf2 in Hf2'. injection Hf2' as <-.
      now rewrite Hc1, Hc2.
Qed.

(** C1 as stated fails.  Two records, a fixed split of one half or two
    folds: the draw 0 at position 1 swaps the records, the draw 1 leaves
    them, and the two plans differ. *)
Lemma new_plans_differ_by_shuffle :
  let run strategy rand :=
    get_training_and_validation_tfrecords
      ["/d/a.tfrecords"; "/d/b.tfrecords"]%string [] ["a"; "b"]%string strategy
      (fun n => (Z.of_nat n / 2)%Z) 2 (Some 1%Z) rand None in
  (exists tv1 tv2 plan1 plan2,
      run "fixed"%string (fun _ => 0) = Ok (tv1, Some plan1) /\
      run "fixed"%string (fun _ => 1) = Ok (tv2, Some plan2) /\
      fixed plan1 = Some ["b.tfrecords"]%string /\
      fixed plan2 = Some ["a.tfrecords"]%string /\
      plan1 <> plan2) /\
  (exists tv1 tv2 plan1 plan2,
      run "k-fold"%string (fun _ => 0) = Ok (tv1, Some plan1) /\
      run "k-fold"%string (fun _ => 1) = Ok (tv2, Some plan2) /\
      k_fold_plan plan1 = Some [["b.tfrecords"]; ["a.tfrecords"]]%string /\
      k_fold_plan plan2 = Some [["a.tfrecords"]; ["b.tfrecords"]]%string /\
      plan1 <> plan2).
Proof.
  split; do 4 eexists; (split; [vm_compute; reflexivity|]);
    (split; [vm_compute; reflexivity|]);
    (split; [reflexivity|]); (split; [reflexivity|]); discriminate.
Qed.

(** The two-record runs above, through the theorem. *)
Lemma new_plans_agree_two_records :
  let run rand :=
    get_training_and_validation_tfrecords
      ["/d/a.tfrecords"; "/d/b.tfrecords"]%string [] ["a"; "b"]%string "k-fold"%string
      (fun n => (Z.of_nat n / 2)%Z) 2 (Some 1%Z) rand None in
  exists tv1 tv2 plan1 plan2,
    run (fun _ => 0) = Ok (tv1, Some plan1) /\
    run (fun _ => 1) = Ok (tv2, Some plan2) /\
    same_shape plan1 plan2 /\ same_names plan1 plan2.
Proof.
  intros run.
  destruct (@new_plans_agree_up_to_shuffle
              ["/d/a.tfrecords"; "/d/b.tfrecords"]%string ["a"; "b"]%string
              "k-fold"%string (fun n => (Z.of_nat n / 2)%Z) 2 (Some 1%Z) 1%Z
              (fun _ => 0) (fun _ => 1))
    as (tv1 & tv2 & plan1 & plan2 & H1 & H2 & _ & Hshape & Hnames).
  - right. repeat split; [lia | discriminate].
  - now exists tv1, tv2, plan1, plan2.
Defined.

(** ** C5 *)

(** C5.  For every record list and every k >= 1, [split] returns k folds
    whose concatenation is the record list itself, so that every record
    lies in a fold and, the records being distinct, in one fold only; fold
    [i] has [len / k] records and one more when [i < len mod k]. *)
Theorem k_fold_split_partitions A (a : list A) (n : Z) :
  (1 <= n)%Z ->
  exists folds,
    split a n = Ok folds /\
    length folds = Z.to_nat n /\
    concat folds = a /\
    (forall i, i < Z.to_nat n ->
       Z.of_nat (length (nth i folds []))
       = (Z.of_nat (length a) / n
          + (if Z.of_nat i <? Z.of_nat (length a) mod n then 1 else 0))%Z) /\
    (forall x, In x a -> exists i, i < Z.to_nat n /\ In x (nth i folds [])) /\
    (NoDup a -> forall i j x,
         In x (nth i folds []) -> In x (nth j folds []) -> i = j).
Proof.
  intros Hn.
  destruct (split_spec a Hn) as (folds & Hsplit & Hlen & Hcat & Hsize).
  exists folds. repeat split; trivial.
  - intros x Hx. rewrite <- Hcat in Hx. apply in_concat in Hx.
    destruct Hx as (l & Hl & Hxl).
    destruct (In_nth _ _ [] Hl) as (i & Hi & <-).
    exists i. split; [lia | exact Hxl].
  - intros Hnd. apply NoDup_concat_once. now rewrite Hcat.
Qed.

(** Ten records in three folds: sizes 4, 3 and 3, every record in one fold. *)
Lemma k_fold_split_ten_three :
  (1 <= 3)%Z /\
  exists folds,
    split ([1; 2; 3; 4; 5; 6; 7; 8; 9; 10]%Z) 3 = Ok folds /\
    map (@length Z) folds = [4; 3; 3] /\
    concat folds = [1; 2; 3; 4; 5; 6; 7; 8; 9; 10]%Z /\
    folds = [[1; 2; 3; 4]; [5; 6; 7]; [8; 9; 10]]%Z.
Proof.
  split; [lia|].
  destruct (@k_fold_split_partitions Z ([1; 2; 3; 4; 5; 6; 7; 8; 9; 10]%Z) 3)
    as (folds & Hsplit & _ & Hcat & _); [lia|].
  exists folds. split; [exact Hsplit|].
  vm_compute in Hsplit. injection Hsplit as <-.
  repeat split; reflexivity.
Defined.
(** ** A persisted plan takes precedence *)

Lemma in_firstn A (x : A) (n : nat) (l : list A) : In x (firstn n l) -> In x l.
Proof.
  intros H. rewrite <- (firstn_skipn n l). apply in_or_app. now left.
Qed.

(** X1.  The fixed plan one generation writes is the plan a later call finds and
    keeps, whatever its own shuffle: the later call selects the records the
    plan names and leaves the file as it is. *)
Lemma persisted_fixed_plan_is_reused
      (globbed slide_list : list string) (num_val_of : nat -> Z)
      (k_fold : Z) (k_fold_iter : option Z) (rand1 rand2 : nat -> nat) :
  let records := filter (in_slide_list slide_list) globbed in
  let run := get_training_and_validation_tfrecords
               globbed [] slide_list "fixed" num_val_of k_fold k_fold_iter in
  (0 <= num_val_of (length records) <= Z.of_nat (length records))%Z ->
  exists tv1 plan logged,
    run rand1 None = Ok (tv1, Some plan) /\
    fixed plan = Some logged /\
    run rand2 (Some plan)
    = Ok ((filter (fun tfr => negb (mem (last_component tfr) logged))
                  (shuffled_tfrecords globbed slide_list rand2),
           filter (fun tfr => mem (last_component tfr) logged)
                  (shuffled_tfrecords globbed slide_list rand2)),
          Some plan).
Proof.
  intros records run Hnv. subst run.
  unfold get_training_and_validation_tfrecords. simpl.
  set (s1 := shuffled_tfrecords globbed slide_list rand1).
  set (s2 := shuffled_tfrecords globbed slide_list rand2).
  assert (Hp1 : Permutation s1 records) by apply shuffle_perm.
  assert (Hp2 : Permutation s2 records) by apply shuffle_perm.
  pose proof (Permutation_length Hp1) as Hl1.
  pose proof (Permutation_length Hp2) as Hl2.
  unfold new_fixed_plan. do 3 eexists. split; [reflexivity|]. split; [reflexivity|].
  cbn [fixed]. rewrite Hl2, <- Hl1.
  set (nv := num_val_of (length s1)).
  assert (Hnv' : (0 <= nv <= Z.of_nat (length s1))%Z) by (unfold nv; now rewrite Hl1).
  assert (Hslice : slice s1 0 nv = firstn (Z.to_nat nv) s1).
  { rewrite slice_inside by lia. simpl. now rewrite Nat.sub_0_r. }
  rewrite Hslice, length_map, length_firstn.
  replace (Z.of_nat (Nat.min (Z.to_nat nv) (length s1))) with nv by lia.
  rewrite Z.eqb_refl. simpl negb. cbv iota.
  replace (forallb (fun tf => mem (drop_suffix10 tf) slide_list)
                   (map last_component (firstn (Z.to_nat nv) s1)))
    with true; [reflexivity|].
  symmetry. apply forallb_forall. intros tf Htf.
  apply in_map_iff in Htf. destruct Htf as (tfr & <- & Hin).
  apply in_firstn in Hin. apply (Permutation_in _ Hp1) in Hin.
  unfold records in Hin. apply filter_In in Hin. apply Hin.
Qed.

End PlannerFacts.

(* ================================================================== *)
(** * Properties of the orchestrator *)
(* ================================================================== *)

Module OrchestratorFacts.
Import Py Orchestrator.

(** ** Membership after the interrupted markers are dropped *)

Lemma mem_In (x : string) (l : list string) : mem x l = true <-> In x l.
Proof.
  unfold mem. rewrite existsb_exists. split.
  - intros (y & Hy & E). apply String.eqb_eq in E. now subst.
  - intros H. exists x. split; [exact H | apply String.eqb_refl].
Qed.

Lemma mem_del_first (x s : string) (l : list string) :
  NoDup l -> mem x (del_first s l) = mem x l && negb (String.eqb x s).
Proof.
  induction l as [|y l IH]; intros Hnd; simpl; [reflexivity|].
  inversion Hnd as [|? ? Hy Hnd']; subst.
  destruct (String.eqb_spec s y) as [->|Hsy].
  - destruct (String.eqb_spec x y) as [->|Hxy]; simpl.
    + destruct (mem y l) eqn:E; [|reflexivity].
      apply mem_In in E. contradiction.
    + now rewrite andb_true_r.
  - simpl. rewrite IH by exact Hnd'.
    destruct (String.eqb_spec x y) as [->|Hxy]; simpl; [|reflexivity].
    destruct (String.eqb_spec y s) as [->|_]; [contradiction|reflexivity].
Qed.

Lemma NoDup_del_first (s : string) (l : list string) :
  NoDup l -> NoDup (del_first s l).
Proof.
  induction l as [|y l IH]; intros Hnd; simpl; [constructor|].
  inversion Hnd as [|? ? Hy Hnd']; subst.
  destruct (String.eqb s y); [exact Hnd'|].
  constructor; [|now apply IH].
  intros Hin. apply Hy. apply mem_In. apply mem_In in Hin.
  rewrite mem_del_first in Hin by exact Hnd'.
  now apply andb_true_iff in Hin.
Qed.

Lemma mem_drop_interrupted (x : string) (interrupted already : list string) :
  NoDup already ->
  mem x (drop_interrupted interrupted already)
  = mem x already && negb (mem x interrupted).
Proof.
  unfold drop_interrupted. revert already.
  induction interrupted as [|s interrupted IH]; intros already Hnd; simpl.
  - now rewrite andb_true_r.
  - destruct (mem s already) eqn:Hs.
    + rewrite IH by now apply NoDup_del_first.
      rewrite mem_del_first by exact Hnd.
      rewrite negb_orb, andb_assoc. reflexivity.
    + rewrite IH by exact Hnd.
      destruct (String.eqb_spec x s) as [->|_]; simpl; [|reflexivity].
      now rewrite Hs.
Qed.

(** ** C6 *)

Lemma drop_interrupted_guard (interrupted already : list string) :
  (if negb (length interrupted =? 0)
   then drop_interrupted interrupted already else already)
  = drop_interrupted interrupted already.
Proof. now destruct interrupted. Qed.

Lemma extract_tiles_skipping (path_to_name : string -> string) (save_tiles : bool)
      (slide_list tfrecords markers : list string) :
  NoDup (map path_to_name tfrecords) ->
  extract_tiles path_to_name save_tiles true true slide_list tfrecords markers
  = Some (filter (fun slide =>
                    negb (mem (path_to_name slide) (map path_to_name tfrecords)
                          && negb (mem (path_to_name slide) (map path_to_name markers))))
                 slide_list).
Proof.
  intros Hnd. unfold extract_tiles.
  rewrite andb_false_r, drop_interrupted_guard. simpl. f_equal.
  apply filter_ext. intros slide.
  now rewrite mem_drop_interrupted by exact Hnd.
Qed.

(** C6, as the code has it.  With skip-extracted and record saving both
    enabled, and every existing record listed under its name once, a slide is
    skipped if and only if its record exists and no ['.unfinished'] marker
    bears its name: the slides processed are the others, in their order. *)
Theorem skip_extracted_iff (path_to_name : string -> string) (save_tiles : bool)
        (slide_list tfrecords markers : list string) :
  NoDup (map path_to_name tfrecords) ->
  exists processed,
    extract_tiles path_to_name save_tiles true true slide_list tfrecords markers
    = Some processed /\
    forall slide, In slide slide_list ->
      (~ In slide processed <->
       In (path_to_name slide) (map path_to_name tfrecords) /\
       ~ In (path_to_name slide) (map path_to_name markers)).
Proof.
  intros Hnd. eexists. split; [now apply extract_tiles_skipping|].
  intros slide Hin. rewrite filter_In, <- !mem_In. apply mem_In in Hin.
  destruct (mem (path_to_name slide) (map path_to_name tfrecords));
    destruct (mem (path_to_name slide) (map path_to_name markers));
    simpl; intuition congruence.
Qed.

(** Five slides, three with a finished record, one with a record and an
    interrupted marker, one with nothing: the three are skipped, the other
    two processed.  Paths stand for their own names. *)
Lemma skip_three_of_five :
  let slides := ["s1"; "s2"; "s3"; "s4"; "s5"]%string in
  let processed := ["s4"; "s5"]%string in
  NoDup ["s1"; "s2"; "s3"; "s4"]%string /\
  extract_tiles (fun p => p) false true true slides
                ["s1"; "s2"; "s3"; "s4"]%string ["s4"]%string = Some processed /\
  skipped processed slides = ["s1"; "s2"; "s3"]%string /\
  (~ In "s2"%string processed /\ ~ ~ In "s4"%string processed).
Proof.
  intros slides processed.
  assert (Hnd : NoDup (map (fun p : string => p) ["s1"; "s2"; "s3"; "s4"]%string)).
  { repeat constructor; simpl; intuition discriminate. }
  destruct (@skip_extracted_iff (fun p => p) false slides
                                ["s1"; "s2"; "s3"; "s4"]%string ["s4"]%string Hnd)
    as (processed' & Hrun & Hiff).
  assert (Heq : processed' = processed)
    by (vm_compute in Hrun; now injection Hrun as <-).
  subst processed'.
  split; [exact Hnd|]. split; [exact Hrun|]. split; [reflexivity|].
  split.
  - apply (Hiff "s2"%string); simpl; intuition discriminate.
  - intros Hn. apply (Hiff "s4"%string) in Hn; simpl in *; intuition discriminate.
Defined.

(** C6 as stated fails: skip-extracted alone does not skip.  Without record
    saving ([save_tfrecord] false, tiles saved instead) a slide whose record
    exists, with no marker, is processed again. *)
Lemma skip_extracted_needs_save_tfrecord :
  extract_tiles (fun p => p) true false true ["s1"; "s2"]%string ["s1"]%string []
  = Some ["s1"; "s2"]%string /\
  In "s1"%string ["s1"]%string /\ ~ In "s1"%string (@nil string).
Proof. split; [reflexivity|]. split; simpl; intuition. Qed.

(** Why every record must be listed once: the marker of a slide removes one
    entry of the list of extracted names, and a second entry of the same name
    still has the slide skipped. *)
Example duplicate_record_name_is_skipped :
  extract_tiles (fun p => p) false true true ["s1"]%string
                ["s1"; "s1"]%string ["s1"]%string = Some [].
Proof. reflexivity. Qed.

(** ** C3 *)





End OrchestratorFacts.

(* ================================================================== *)
(** * Properties of the Reinhard normaliser *)
(* ================================================================== *)

Module ReinhardFacts.
Import Reinhard.

(** ** Elementwise operations *)

Section Map2.
Context {A B C D E : Type}.

Lemma map2_map_r (f : A -> C -> D) (g : B -> C) (idx : list A) (l : list B) :
  map2 f idx (map g l) = map2 (fun i x => f i (g x)) idx l.
Proof.
  revert l. induction idx as [|i idx IH]; intros [|x l]; simpl; trivial.
  now rewrite IH.
Qed.

Lemma map2_map_l (f : C -> B -> D) (g : A -> C) (idx : list A) (l : list B) :
  map2 f (map g idx) l = map2 (fun i x => f (g i) x) idx l.
Proof.
  revert l. induction idx as [|i idx IH]; intros [|x l]; simpl; trivial.
  now rewrite IH.
Qed.

Lemma map_map2 (h : C -> D) (f : A -> B -> C) (idx : list A) (l : list B) :
  map h (map2 f idx l) = map2 (fun i x => h (f i x)) idx l.
Proof.
  revert l. induction idx as [|i idx IH]; intros [|x l]; simpl; trivial.
  now rewrite IH.
Qed.

Lemma map2_map2_r (f : A -> C -> D) (g : A -> B -> C) (idx : list A) (l : list B) :
  map2 f idx (map2 g idx l) = map2 (fun i x => f i (g i x)) idx l.
Proof.
  revert l. induction idx as [|i idx IH]; intros [|x l]; simpl; trivial.
  now rewrite IH.
Qed.

Lemma map2_map2 (F : C -> D -> E) (f : A -> B -> C) (g : A -> B -> D)
      (idx : list A) (l : list B) :
  map2 F (map2 f idx l) (map2 g idx l) = map2 (fun i x => F (f i x) (g i x)) idx l.
Proof.
  revert l. induction idx as [|i idx IH]; intros [|x l]; simpl; trivial.
  now rewrite IH.
Qed.

Lemma map2_diag (F : C -> D -> E) (f : B -> C) (g : B -> D) (l : list B) :
  map2 F (map f l) (map g l) = map (fun x => F (f x) (g x)) l.
Proof. induction l as [|x l IH]; simpl; trivial. now rewrite IH. Qed.

Lemma map2_ext_in (f g : A -> B -> C) (idx : list A) (l : list B) :
  (forall i x, In i idx -> In x l -> f i x = g i x) -> map2 f idx l = map2 g idx l.
Proof.
  revert l. induction idx as [|i idx IH]; intros [|x l] H; simpl; trivial.
  rewrite H by (now left). f_equal. apply IH. intros; apply H; now right.
Qed.

Lemma length_map2 (f : A -> B -> C) (a : list A) (b : list B) :
  length (map2 f a b) = Nat.min (length a) (length b).
Proof.
  revert b. induction a as [|x a IH]; intros [|y b]; simpl; trivial.
  now rewrite IH.
Qed.

Lemma nth_error_map2 (f : A -> B -> C) (a : list A) (b : list B) (n : nat) :
  nth_error (map2 f a b) n
  = match nth_error a n, nth_error b n with
    | Some x, Some y => Some (f x y)
    | _, _ => None
    end.
Proof.
  revert a b. induction n as [|n IH]; intros [|x a] [|y b]; simpl; trivial.
  now destruct (nth_error a n).
Qed.

End Map2.

Lemma imap_const A B (f : A -> B) (l : list A) : imap (fun _ => f) l = map f l.
Proof.
  unfold imap. generalize 0. induction l as [|x l IH]; intros s; simpl; trivial.
  now rewrite IH.
Qed.

Lemma imap_map A B C (f : nat -> B -> C) (g : A -> B) (l : list A) :
  imap f (map g l) = imap (fun i x => f i (g x)) l.
Proof. unfold imap. now rewrite length_map, map2_map_r. Qed.

(** The index [imap] passes along is the position of the element. *)
Lemma imap_ext_nth A B (f g : nat -> A -> B) (l : list A) :
  (forall i x, nth_error l i = Some x -> f i x = g i x) -> imap f l = imap g l.
Proof.
  unfold imap. intros H.
  assert (G : forall s, (forall i x, nth_error l i = Some x -> f (s + i) x = g (s + i) x) ->
                        map2 f (seq s (length l)) l = map2 g (seq s (length l)) l).
  { clear H. induction l as [|x l IH]; intros s H; simpl; trivial.
    pose proof (H 0 x eq_refl) as H0. rewrite Nat.add_0_r in H0.
    rewrite H0. f_equal. apply IH. intros i y Hi.
    specialize (H (S i) y Hi). now rewrite Nat.add_succ_r in H. }
  apply (G 0). exact H.
Qed.

Lemma nth_error_imap A B (f : nat -> A -> B) (l : list A) (n : nat) :
  nth_error (imap f l) n = option_map (f n) (nth_error l n).
Proof.
  unfold imap. rewrite nth_error_map2.
  destruct (nth_error l n) as [x|] eqn:E.
  - assert (Hn : n < length l) by (apply nth_error_Some; congruence).
    rewrite (nth_error_nth' _ 0) by now rewrite length_seq.
    now rewrite seq_nth.
  - now destruct (nth_error (seq 0 (length l)) n).
Qed.

Section Facts.
Context {ops : TorchOps}.

(** ** Broadcasting *)

Lemma repeat_map_seq A (x : A) (n s : nat) : repeat x n = map (fun _ => x) (seq s n).
Proof. revert s. induction n as [|n IH]; intros s; simpl; trivial. now rewrite <- IH. Qed.

Lemma row_at_nth (v : list F) (b : nat) :
  b < length v -> row_at v b = nth b v (of_int 0).
Proof.
  destruct v as [|x [|y v]]; simpl; trivial.
  intros Hb. now replace b with 0 by lia.
Qed.

Lemma row_at_map_nth A (h : A -> F) (l : list A) (b : nat) (x : A) :
  nth_error l b = Some x -> row_at (map h l) b = h x.
Proof.
  intros Hb.
  assert (Hlt : b < length (map h l))
    by (rewrite length_map; apply nth_error_Some; congruence).
  rewrite row_at_nth by exact Hlt.
  apply nth_error_nth. now apply map_nth_error.
Qed.

Lemma row_at_map (g : F -> F) (s : list F) (B b : nat) :
  broadcastable s B -> b < B -> row_at (map g s) b = g (row_at s b).
Proof.
  intros Hs Hb. destruct s as [|x [|y s]]; trivial.
  - destruct Hs as [Hs|Hs]; simpl in Hs; [discriminate | lia].
  - destruct Hs as [Hs|Hs]; [discriminate|].
    assert (Hlt : b < length (x :: y :: s)) by (rewrite Hs; exact Hb).
    destruct (nth_error (x :: y :: s) b) as [z|] eqn:E;
      [|apply nth_error_None in E; lia].
    rewrite (row_at_map_nth g _ _ E).
    rewrite row_at_nth by exact Hlt. f_equal. symmetry. now apply nth_error_nth.
Qed.

Lemma expand_ok (v : list F) (B : nat) :
  broadcastable v B -> expand v B = Ok (map (row_at v) (seq 0 B)).
Proof.
  intros Hv. destruct v as [|x [|y v]].
  - destruct Hv as [Hv|Hv]; [discriminate|]. simpl in Hv. now subst B.
  - simpl. f_equal. apply repeat_map_seq.
  - destruct Hv as [Hv|Hv]; [discriminate|].
    unfold expand. rewrite Hv, Nat.eqb_refl. f_equal.
    rewrite <- Hv.
    rewrite (map_ext_in (row_at (x :: y :: v)) (fun b => nth b (x :: y :: v) (of_int 0))).
    + symmetry. etransitivity; [|apply map_id].
      apply (PlannerFacts.map_nth_seq (fun z => z)).
    + intros b Hb. apply in_seq in Hb. apply row_at_nth. lia.
Qed.

(** ** What [norm] computes *)

Lemma norm_rescales (X : batch F) (m s : list F) (ts tm : F) :
  broadcastable m (length X) -> broadcastable s (length X) ->
  norm X m s ts tm
  = Ok (imap (fun b img =>
                map (map (fun x => rescale x (row_at m b) (row_at s b) ts tm)) img) X).
Proof.
  intros Hm Hs. unfold norm.
  rewrite (expand_ok Hm). simpl.
  rewrite length_map2, length_map, length_seq, Nat.min_id.
  rewrite expand_ok by (unfold broadcastable in *; now rewrite length_map).
  simpl. f_equal. unfold bmap, imap.
  rewrite !map2_map_l, map2_map2_r, map_map2.
  apply map2_ext_in. intros b img Hb _. apply in_seq in Hb.
  rewrite (row_at_map _ Hs) by (destruct Hb as [_ Hb]; exact Hb).
  rewrite !map_map. apply map_ext. intros row. now rewrite !map_map.
Qed.

(** ** What [transform] computes *)

Lemma transform_with_context (I : batch rgb8) (tm ts : F3) (m s : stats) :
  stats_fit m (length I) -> stats_fit s (length I) ->
  transform I tm ts (Some m) (Some s) None
  = Ok (imap (fun b img =>
                map (map (normalize_pixel tm ts (stats_at m b) (stats_at s b))) img) I).
Proof.
  destruct m as [[m1 m2] m3], s as [[s1 s2] s3].
  intros (Hm1 & Hm2 & Hm3) (Hs1 & Hs2 & Hs3). simpl in *.
  unfold transform, lab_split.
  rewrite !norm_rescales by (unfold bmap; now rewrite !length_map).
  simpl. f_equal. unfold merge_back, bmap2, bmap.
  rewrite !imap_map. unfold imap.
  rewrite !map2_map2, !map_map2.
  apply map2_ext_in. intros b img _ _.
  rewrite !map_map, !map2_diag, !map_map. apply map_ext. intros row.
  rewrite !map_map, !map2_diag, !map_map. apply map_ext. intros p.
  reflexivity.
Qed.

Lemma channel_flat (c : F3 -> F) (img : image rgb8) :
  flat (map (map c) (map (map lab_of) img)) = channel c img.
Proof. unfold channel. f_equal. rewrite map_map. apply map_ext. intros row. apply map_map. Qed.

Lemma transform_own_statistics (I : batch rgb8) (tm ts : F3) :
  transform I tm ts None None None
  = Ok (map (fun img =>
               map (map (normalize_pixel tm ts (image_mean img) (image_std img))) img) I).
Proof.
  pose (own := get_mean_std (bmap ch1 (bmap lab_of I)) (bmap ch2 (bmap lab_of I))
                            (bmap ch3 (bmap lab_of I)) false).
  transitivity (transform I tm ts (Some (fst own)) (Some (snd own)) None);
    [reflexivity|].
  rewrite transform_with_context;
    try (repeat split; right; simpl; unfold bmap; now rewrite !length_map).
  f_equal. rewrite <- imap_const. apply imap_ext_nth. intros b img Hb.
  assert (Hrow : forall (c : F3 -> F) (f : list F -> F),
             row_at (map (fun img => f (flat img)) (bmap c (bmap lab_of I))) b
             = f (channel c img)).
  { intros c f. unfold bmap. rewrite !map_map.
    rewrite (row_at_map_nth _ _ _ Hb). now rewrite channel_flat. }
  unfold stats_at, own, image_mean, image_std. simpl. now rewrite !Hrow.
Qed.

(** A threshold that is set masks the result of the unmasked call. *)
Lemma transform_masked (I : batch rgb8) (tm ts : F3) (cm cs : option stats)
      (thr : option F) (t : F) :
  threshold_set thr = Some t ->
  transform I tm ts cm cs thr
  = bind (transform I tm ts cm cs None)
         (fun clipped => Ok (where_ (bmap (fun p => flt (lightness_fraction p) t) I)
                                    clipped I)).
Proof.
  intros Ht. unfold transform. rewrite Ht. simpl threshold_set.
  assert (Hmask : bmap (fun l => flt (fdiv l (of_int 100)) t) (bmap ch1 (bmap lab_of I))
                  = bmap (fun p => flt (lightness_fraction p) t) I).
  { unfold bmap. rewrite !map_map. apply map_ext. intros img.
    rewrite !map_map. apply map_ext. intros row. now rewrite !map_map. }
  destruct cm as [[[m1 m2] m3]|], cs as [[[s1 s2] s3]|]; trivial;
    unfold lab_split, get_mean_std; cbv zeta; cbv beta iota; rewrite Hmask;
    repeat match goal with
           | |- context [norm ?X ?m ?s ?a ?b] => destruct (norm X m s a b); simpl; trivial
           end.
Qed.

(** A threshold that is unset, or falsy, leaves the call unmasked. *)
Lemma transform_unmasked (I : batch rgb8) (tm ts : F3) (cm cs : option stats)
      (thr : option F) :
  threshold_set thr = None ->
  transform I tm ts cm cs thr = transform I tm ts cm cs None.
Proof. intros Ht. unfold transform. now rewrite Ht. Qed.

(** The unmasked call, with or without a context. *)
Lemma transform_rescales (I : batch rgb8) (tm ts : F3) (cm cs : option stats) :
  context_fits cm cs (length I) ->
  transform I tm ts cm cs None
  = Ok (imap (fun b img =>
                map (map (normalize_pixel tm ts (source_mean I cm b) (source_std I cs b)))
                    img) I).
Proof.
  destruct cm as [m|], cs as [s|]; unfold context_fits; try contradiction.
  - intros [Hm Hs]. now apply transform_with_context.
  - intros _. rewrite transform_own_statistics. unfold source_mean, source_std. f_equal.
    rewrite <- imap_const. apply imap_ext_nth. intros b img Hb.
    now rewrite (nth_error_nth I b [] Hb).
Qed.

(** ** Pixels *)

Lemma pixel_at_imap A B (f : nat -> A -> B) (I : batch A) (b w h : nat) :
  pixel_at (imap (fun b img => map (map (f b)) img) I) b w h
  = option_map (f b) (pixel_at I b w h).
Proof.
  unfold pixel_at, batch, image in *. rewrite nth_error_imap.
  destruct (nth_error I b) as [img|]; cbn [option_map]; trivial.
  rewrite nth_error_map. destruct (nth_error img w) as [row|]; cbn [option_map]; trivial.
  apply nth_error_map.
Qed.

Lemma pixel_at_bmap A B (f : A -> B) (I : batch A) (b w h : nat) :
  pixel_at (bmap f I) b w h = option_map f (pixel_at I b w h).
Proof.
  unfold pixel_at, bmap, batch, image in *. rewrite nth_error_map.
  destruct (nth_error I b) as [img|]; cbn [option_map]; trivial.
  rewrite nth_error_map. destruct (nth_error img w) as [row|]; cbn [option_map]; trivial.
  apply nth_error_map.
Qed.

Lemma pixel_at_bmap2 A B C (f : A -> B -> C) (X : batch A) (Y : batch B) (b w h : nat) :
  pixel_at (bmap2 f X Y) b w h
  = match pixel_at X b w h, pixel_at Y b w h with
    | Some x, Some y => Some (f x y)
    | _, _ => None
    end.
Proof.
  unfold pixel_at, bmap2, batch, image in *. rewrite nth_error_map2.
  destruct (nth_error X b) as [x|], (nth_error Y b) as [y|]; trivial.
  - rewrite nth_error_map2.
    destruct (nth_error x w) as [rx|], (nth_error y w) as [ry|]; trivial.
    + apply nth_error_map2.
    + now destruct (nth_error rx h).
  - now destruct (nth_error x w) as [rx|]; [destruct (nth_error rx h)|].
Qed.

Lemma pixel_at_where A (mask : batch bool) (X Y : batch A) (b w h : nat) (m : bool) (x y : A) :
  pixel_at mask b w h = Some m -> pixel_at X b w h = Some x -> pixel_at Y b w h = Some y ->
  pixel_at (where_ mask X Y) b w h = Some (if m then x else y).
Proof.
  intros Hm Hx Hy. unfold where_.
  now rewrite !pixel_at_bmap2, Hm, Hx, Hy.
Qed.

(** ** Masked statistics *)

Lemma bflat_bmap A B (f : A -> B) (I : batch A) : bflat (bmap f I) = map f (bflat I).
Proof.
  unfold bflat, bmap, flat. rewrite concat_map, !map_map. f_equal.
  apply map_ext. intros img. symmetry. apply concat_map.
Qed.

Lemma select_not_bmap A (g : rgb8 -> bool) (f : rgb8 -> A) (I : batch rgb8) :
  select_not (bmap g I) (bmap f I) = map f (filter (fun p => negb (g p)) (bflat I)).
Proof.
  unfold select_not. rewrite !bflat_bmap.
  induction (bflat I) as [|p l IH]; simpl; trivial.
  destruct (g p); simpl; now rewrite IH.
Qed.

Lemma get_masked_mean_std_foreground (I : batch rgb8) :
  let over (c : F3 -> F) := map (fun p => c (lab_of p)) (foreground I) in
  get_masked_mean_std I
  = (([tmean (over ch1)], [tmean (over ch2)], [tmean (over ch3)]),
     ([tstd (over ch1)], [tstd (over ch2)], [tstd (over ch3)])).
Proof.
  intros over. unfold get_masked_mean_std, lab_split. cbv zeta.
  assert (H : forall c : F3 -> F,
             select_not (bmap ones I) (bmap c (bmap lab_of I)) = over c).
  { intros c. unfold over, foreground.
    rewrite <- (select_not_bmap ones (fun p => c (lab_of p))). f_equal.
    unfold bmap. rewrite !map_map. apply map_ext. intros img.
    rewrite !map_map. apply map_ext. intros row. now rewrite !map_map. }
  now rewrite !H.
Qed.


(** ** C8 *)


(** ** C10 *)

(** C10.  A call of the module-level [transform] with exactly one of
    [ctx_mean] and [ctx_std] raises [ValueError], whatever the batch, the
    target, the threshold and the tensor arithmetic are: no batch, converted
    or rescaled in part, is returned. *)
Theorem transform_rejects_half_context (I : batch rgb8) (tm ts : F3) (c : stats)
        (thr : option F) :
  transform I tm ts None (Some c) thr = Raise ValueError /\
  transform I tm ts (Some c) None thr = Raise ValueError.
Proof. split; reflexivity. Qed.

(** ** C9 *)


(** Every pixel of the result, in terms of the input pixel. *)
Lemma transform_pixels (I : batch rgb8) (tm ts : F3) (cm cs : option stats)
      (thr : option F) :
  context_fits cm cs (length I) ->
  exists out,
    transform I tm ts cm cs thr = Ok out /\
    forall b w h p,
      pixel_at I b w h = Some p ->
      pixel_at out b w h
      = Some (let q := normalize_pixel tm ts (source_mean I cm b) (source_std I cs b) p in
              match threshold_set thr with
              | Some t => if flt (lightness_fraction p) t then q else p
              | None => q
              end).
Proof.
  intros Hfit.
  assert (Hq : forall b w h p, pixel_at I b w h = Some p ->
               pixel_at
                 (imap (fun b img =>
                          map (map (normalize_pixel tm ts (source_mean I cm b)
                                                    (source_std I cs b))) img) I) b w h
               = Some (normalize_pixel tm ts (source_mean I cm b) (source_std I cs b) p))
    by (intros b w h p Hp; now rewrite pixel_at_imap, Hp).
  destruct (threshold_set thr) as [t|] eqn:Hthr.
  - rewrite (transform_masked _ _ _ _ _ _ Hthr), (transform_rescales I tm ts cm cs Hfit).
    simpl. eexists. split; [reflexivity|]. intros b w h p Hp.
    assert (Hm : pixel_at (bmap (fun p => flt (lightness_fraction p) t) I) b w h
                 = Some (flt (lightness_fraction p) t))
      by now rewrite pixel_at_bmap, Hp.
    exact (pixel_at_where _ _ _ _ _ _ Hm (Hq b w h p Hp) Hp).
  - rewrite (transform_unmasked _ _ _ _ _ _ Hthr), (transform_rescales I tm ts cm cs Hfit).
    eexists. split; [reflexivity|]. exact Hq.
Qed.

(** ** C7 *)

(** C7, as the code has it.  With a mask threshold that is set (supplied and
    not zero), [transform] returns for every input pixel the pixel itself
    when its lightness fraction is not below the threshold (above it or equal
    to it), and the rescaled pixel of the unmasked call when it is below. *)
Theorem mask_keeps_pixels_not_below_threshold (I : batch rgb8) (tm ts : F3)
        (cm cs : option stats) (thr : option F) (t : F) :
  threshold_set thr = Some t ->
  context_fits cm cs (length I) ->
  exists out clipped,
    transform I tm ts cm cs thr = Ok out /\
    transform I tm ts cm cs None = Ok clipped /\
    forall b w h p,
      pixel_at I b w h = Some p ->
      pixel_at clipped b w h
      = Some (normalize_pixel tm ts (source_mean I cm b) (source_std I cs b) p) /\
      (flt (lightness_fraction p) t = false -> pixel_at out b w h = Some p) /\
      (flt (lightness_fraction p) t = true ->
       pixel_at out b w h = pixel_at clipped b w h).
Proof.
  intros Hthr Hfit.
  destruct (transform_pixels I tm ts cm cs thr Hfit) as (out & Hout & Hpix).
  destruct (transform_pixels I tm ts cm cs None Hfit) as (clipped & Hclip & Hq).
  exists out, clipped. split; [exact Hout|]. split; [exact Hclip|].
  intros b w h p Hp. specialize (Hpix b w h p Hp). specialize (Hq b w h p Hp).
  rewrite Hthr in Hpix. simpl in Hpix, Hq.
  split; [exact Hq|]. rewrite Hpix, Hq.
  split; intros ->; reflexivity.
Qed.

(** ** C4 *)


(** ** C2 *)

(** Leaving the scope normally runs [clear_context]. *)
Lemma image_context_clears_on_normal_exit A (I : image_arg)
      (body : normalizer -> result A * normalizer) (self s2 : normalizer) (a : A) :
  body (snd (set_context I self)) = (Ok a, s2) ->
  exists self',
    with_cm (image_context I) body self = (Ok a, self') /\
    _ctx_means self' = None /\ _ctx_stds self' = None.
Proof.
  intros Hbody. unfold with_cm, image_context. simpl before_yield.
  unfold set_context in *. destruct (get_masked_mean_std _) as [means stds].
  simpl in *. rewrite Hbody. simpl. eexists. split; [reflexivity|]. now split.
Qed.

(** Leaving it by an exception does not: the object is left as the body
    left it. *)
Lemma image_context_skips_clear_on_exception A (I : image_arg)
      (body : normalizer -> result A * normalizer) (self s2 : normalizer) (e : exn) :
  body (snd (set_context I self)) = (Raise e, s2) ->
  with_cm (image_context I) body self = (Raise e, s2).
Proof.
  intros Hbody. unfold with_cm, image_context. simpl before_yield.
  unfold set_context in *. destruct (get_masked_mean_std _) as [means stds].
  simpl in *. now rewrite Hbody.
Qed.

(** C2, on the exception path.  A scope [with image_context(I):] whose body
    raises leaves the context statistics of [I] stored on the normaliser:
    both are still set after the scope, and a later [transform] is handed
    them in place of the per-tile statistics. *)
Theorem image_context_exception_keeps_context (I : image_arg) (e : exn)
        (self : normalizer) :
  exists self' m s,
    with_cm (image_context I) (fun s => (@Raise unit e, s)) self = (Raise e, self') /\
    _ctx_means self' = Some m /\ _ctx_stds self' = Some s /\
    (m, s) = get_masked_mean_std
               (clip_size (match I with Single img => [img] | Batch Ib => Ib end) 2048) /\
    forall a1 a2, _get_context_means self' a1 a2 = (Some m, Some s).
Proof.
  unfold with_cm, image_context. cbn [before_yield]. unfold set_context.
  destruct (get_masked_mean_std _) as [means stds] eqn:E.
  eexists _, means, stds. split; [reflexivity|].
  split; [reflexivity|]. split; [reflexivity|]. split; [reflexivity|].
  intros a1 a2. reflexivity.
Qed.

End Facts.

(** ** The properties on sample tiles, in IEEE arithmetic *)

Section Samples.
Import IEEE.
Local Open Scope Z_scope.
#[local] Existing Instance IEEE.ops.


(** C7 with the threshold one half: the white pixel, of lightness fraction
    one, is kept; the two darker pixels are rescaled. *)
Lemma mask_keeps_white_sample :
  threshold_set (Some half) = Some half /\
  context_fits None None 1 /\
  transform tile target_mean target_std None None (Some half)
  = Ok [[[white; (144, 126, 107); (112, 102, 92)]]].
Proof.
  split; [reflexivity|]. split; [exact Logic.I|].
  destruct (@mask_keeps_pixels_not_below_threshold
              IEEE.ops tile target_mean target_std None None
              (Some half) half eq_refl Logic.I)
    as (out & clipped & Hout & _).
  rewrite Hout. vm_compute in Hout. injection Hout as <-. reflexivity.
Defined.

(** C7 as stated fails twice.  A threshold of zero is supplied but not set:
    the white pixel, whose lightness fraction one is above it, is rescaled.
    And at the threshold one the white pixel, which is not above it, is
    copied, not rescaled. *)
Lemma mask_threshold_zero_and_boundary :
  (exists out,
      transform tile target_mean target_std None None (Some (of_Z 0)) = Ok out /\
      pixel_at tile 0 0 0 = Some white /\
      flt (of_Z 0) (lightness_fraction white) = true /\
      pixel_at out 0 0 0 = Some (163, 153, 143) /\
      (163, 153, 143) <> white) /\
  (exists out clipped,
      transform tile target_mean target_std None None (Some (of_Z 1)) = Ok out /\
      transform tile target_mean target_std None None None = Ok clipped /\
      pixel_at tile 0 0 0 = Some white /\
      lightness_fraction white = of_Z 1 /\
      flt (of_Z 1) (lightness_fraction white) = false /\
      pixel_at out 0 0 0 = Some white /\
      pixel_at clipped 0 0 0 = Some (163, 153, 143)).
Proof.
  split.
  - eexists. split; [vm_compute; reflexivity|].
    repeat split; try (vm_compute; reflexivity). discriminate.
  - do 2 eexists. split; [vm_compute; reflexivity|].
    split; [vm_compute; reflexivity|].
    repeat split; vm_compute; reflexivity.
Qed.





End Samples.

End ReinhardFacts.

(* ================================================================== *)
(** * Further properties of the validation planner *)
(* ================================================================== *)

Module PlannerMore.
Import Py Planner PlannerFacts.

(** ** Slices of any bound *)

(** [a[0:n] + a[n:]] is [a] for every integer [n], negative or beyond the
    end. *)
Lemma slice_split A (a : list A) (n : Z) : slice a 0 n ++ slice_from a n = a.
Proof.
  unfold slice, slice_from.
  replace (adjust (Z.of_nat (length a)) 0) with 0%Z
    by (unfold adjust; simpl; lia).
  set (n' := adjust (Z.of_nat (length a)) n).
  simpl skipn. rewrite Z.sub_0_r. apply firstn_skipn.
Qed.

Lemma in_slice A (a : list A) (lo hi : Z) (x : A) : In x (slice a lo hi) -> In x a.
Proof.
  unfold slice. intros H. apply in_firstn in H.
  rewrite <- (firstn_skipn (Z.to_nat (adjust (Z.of_nat (length a)) lo)) a).
  apply in_or_app. now right.
Qed.

Lemma in_slice_from A (a : list A) (lo : Z) (x : A) : In x (slice_from a lo) -> In x a.
Proof.
  unfold slice_from. intros H.
  rewrite <- (firstn_skipn (Z.to_nat (adjust (Z.of_nat (length a)) lo)) a).
  apply in_or_app. now right.
Qed.

(** ** The k-fold loop, in full *)

(** What the loop leaves in [training_tfrecords], [validation_tfrecords] and
    the plan: the folds other than [idx] in order, fold [idx] if the loop
    reaches it, the names of every fold. *)
Lemma k_fold_loop_full (idx : Z) (recs : list (list string)) :
  forall (len s : nat) (training validation : list string) (folds : list (list string)),
    s + len <= length recs ->
    k_fold_loop (map Z.of_nat (seq s len)) (Some idx) recs training validation folds
    = Ok (training
          ++ concat (map (fun k => if (Z.of_nat k =? idx)%Z then [] else nth k recs [])
                         (seq s len)),
          if ((Z.of_nat s <=? idx) && (idx <? Z.of_nat (s + len)))%Z
          then nth (Z.to_nat idx) recs [] else validation,
          folds ++ map (fun k => map last_component (nth k recs [])) (seq s len)).
Proof.
  induction len as [|len IH]; intros s training validation folds Hs.
  - simpl. rewrite !app_nil_r.
    replace ((Z.of_nat s <=? idx) && (idx <? Z.of_nat (s + 0)))%Z with false; trivial.
    symmetry. apply andb_false_iff.
    destruct (Z.leb_spec (Z.of_nat s) idx); [right|now left].
    apply Z.ltb_ge. lia.
  - cbn [seq map k_fold_loop]. cbn [bind].
    rewrite (index_nth _ []) by lia. cbn [bind].
    rewrite IH by lia. f_equal. f_equal; [f_equal|].
    + cbn [concat map]. destruct (Z.eqb_spec (Z.of_nat s) idx).
      * reflexivity.
      * now rewrite app_assoc.
    + destruct (Z.eqb_spec (Z.of_nat s) idx) as [<-|Hne].
      * rewrite Nat2Z.id.
        replace ((Z.of_nat (S s) <=? Z.of_nat s) && _)%Z with false
          by (symmetry; apply andb_false_iff; left; apply Z.leb_gt; lia).
        replace ((Z.of_nat s <=? Z.of_nat s) && (Z.of_nat s <? Z.of_nat (s + S len)))%Z
          with true; trivial.
        symmetry. apply andb_true_iff. split; [apply Z.leb_le|apply Z.ltb_lt]; lia.
      * replace (S s + len) with (s + S len) by lia.
        destruct (Z.ltb (idx) (Z.of_nat (s + S len))); [|now rewrite !andb_false_r].
        rewrite !andb_true_r.
        destruct (Z.leb_spec (Z.of_nat (S s)) idx), (Z.leb_spec (Z.of_nat s) idx);
          trivial; lia.
    + cbn [map]. now rewrite <- app_assoc.
Qed.

(** A fold and the others make up the whole. *)
Lemma fold_and_others A (recs : list (list A)) (i : nat) :
  Permutation
    (nth i recs []
     ++ concat (map (fun k => if k =? i then [] else nth k recs [])
                    (seq 0 (length recs))))
    (concat recs).
Proof.
  revert i. induction recs as [|r recs IH]; intros i.
  - destruct i; reflexivity.
  - cbn [length seq map concat]. rewrite <- seq_shift, map_map.
    destruct i as [|i].
    + cbn [nth Nat.eqb app]. apply Permutation_app_head.
      change (map (fun k => if S k =? 0 then [] else nth (S k) (r :: recs) [])
                  (seq 0 (length recs)))
        with (map (fun k => (fun x : list A => x) (nth k recs [])) (seq 0 (length recs))).
      rewrite (map_nth_seq (fun x : list A => x)), map_id. reflexivity.
    + cbn [nth]. simpl (0 =? S i).
      change (map (fun k => if S k =? S i then [] else nth (S k) (r :: recs) [])
                  (seq 0 (length recs)))
        with (map (fun k => if k =? i then [] else nth k recs []) (seq 0 (length recs))).
      rewrite Permutation_app_swap_app. apply Permutation_app_head. apply IH.
Qed.

Lemma others_out_of_range A (recs : list (list A)) (idx : Z) :
  (idx < 0 \/ Z.of_nat (length recs) <= idx)%Z ->
  concat (map (fun k => if (Z.of_nat k =? idx)%Z then [] else nth k recs [])
              (seq 0 (length recs)))
  = concat recs.
Proof.
  intros Hidx. f_equal.
  rewrite (map_ext_in _ (fun k => (fun x : list A => x) (nth k recs []))).
  - now rewrite (map_nth_seq (fun x : list A => x)), map_id.
  - intros k Hk. apply in_seq in Hk.
    destruct (Z.eqb_spec (Z.of_nat k) idx); [lia|reflexivity].
Qed.

Lemma others_in_range A (recs : list (list A)) (idx : Z) :
  (0 <= idx)%Z ->
  map (fun k => if (Z.of_nat k =? idx)%Z then [] else nth k recs [])
      (seq 0 (length recs))
  = map (fun k => if k =? Z.to_nat idx then [] else nth k recs [])
        (seq 0 (length recs)).
Proof.
  intros Hidx. apply map_ext. intros k.
  destruct (Z.eqb_spec (Z.of_nat k) idx), (Nat.eqb_spec k (Z.to_nat idx));
    trivial; lia.
Qed.

(** ** New plans cover the records *)

(** X2.  A new fixed or bootstrap split hands every record of the slide list to
    exactly one of the two sets, whatever [int(val_fraction * n)] is, a
    negative count or one beyond the number of records included: the
    validation records followed by the training records are the shuffled
    records. *)
Theorem fixed_and_bootstrap_partition
        (globbed slide_list : list string) (val_strategy : string)
        (num_val_of : nat -> Z) (k_fold : Z) (k_fold_iter : option Z)
        (rand : nat -> nat) :
  val_strategy = "fixed"%string \/ val_strategy = "bootstrap"%string ->
  exists training validation log,
    get_training_and_validation_tfrecords
      globbed [] slide_list val_strategy num_val_of k_fold k_fold_iter rand None
    = Ok ((training, validation), log) /\
    validation ++ training = shuffled_tfrecords globbed slide_list rand /\
    Permutation (validation ++ training) (filter (in_slide_list slide_list) globbed).
Proof.
  intros [-> | ->]; unfold get_training_and_validation_tfrecords, new_fixed_plan;
    simpl; do 3 eexists; (split; [reflexivity|]);
    rewrite slice_split; (split; [reflexivity | apply shuffle_perm]).
Qed.

(** A split that takes one record more than there are, and one that takes
    minus one: each of the three records lands in one of the two sets. *)
Lemma fixed_partition_odd_counts :
  let run n :=
    get_training_and_validation_tfrecords
      ["/d/a.tfrecords"; "/d/b.tfrecords"; "/d/c.tfrecords"]%string []
      ["a"; "b"; "c"]%string "fixed"%string (fun _ => n) 0 None (fun _ => 1) None in
  (exists log, run 4%Z
               = Ok (([], ["/d/a.tfrecords"; "/d/c.tfrecords"; "/d/b.tfrecords"]%string),
                     log)) /\
  (exists log, run (-1)%Z
               = Ok ((["/d/b.tfrecords"], ["/d/a.tfrecords"; "/d/c.tfrecords"])%string,
                     log)).
Proof.
  intros run.
  split;
    [ destruct (@fixed_and_bootstrap_partition
                  ["/d/a.tfrecords"; "/d/b.tfrecords"; "/d/c.tfrecords"]%string
                  ["a"; "b"; "c"]%string "fixed"%string (fun _ => 4%Z) 0 None
                  (fun _ => 1) (or_introl eq_refl)) as (t & v & log & Hrun & _)
    | destruct (@fixed_and_bootstrap_partition
                  ["/d/a.tfrecords"; "/d/b.tfrecords"; "/d/c.tfrecords"]%string
                  ["a"; "b"; "c"]%string "fixed"%string (fun _ => (-1)%Z) 0 None
                  (fun _ => 1) (or_introl eq_refl)) as (t & v & log & Hrun & _) ];
    exists log; unfold run; rewrite Hrun; vm_compute in Hrun;
    injection Hrun as <- <- _; reflexivity.
Defined.

(** The run of a new k-fold plan, step by step. *)
Lemma new_k_fold_plan_run
        (globbed slide_list : list string) (num_val_of : nat -> Z)
        (k_fold it : Z) (rand : nat -> nat) :
  (1 <= k_fold)%Z -> it <> 0%Z ->
  exists folds training validation plan,
    split (shuffled_tfrecords globbed slide_list rand) k_fold = Ok folds /\
    get_training_and_validation_tfrecords
      globbed [] slide_list "k-fold" num_val_of k_fold (Some it) rand None
    = Ok ((training, validation), Some plan) /\
    k_fold_plan plan = Some (map (map last_component) folds) /\
    validation = (if (it - 1 <? 0)%Z then [] else nth (Z.to_nat (it - 1)) folds []) /\
    Permutation (validation ++ training) (filter (in_slide_list slide_list) globbed) /\
    ((it < 0 \/ k_fold < it)%Z ->
     validation = [] /\ training = shuffled_tfrecords globbed slide_list rand).
Proof.
  intros Hk Hit.
  set (s := shuffled_tfrecords globbed slide_list rand).
  destruct (split_spec s Hk) as (folds & Hsplit & Hlen & Hcat & _).
  unfold get_training_and_validation_tfrecords. simpl.
  fold s. unfold new_k_fold_plan. rewrite Hsplit. cbn [bind].
  unfold k_fold_index. destruct (Z.eqb_spec it 0); [contradiction|].
  unfold range. rewrite <- Hlen.
  rewrite k_fold_loop_full by lia. cbn [bind app].
  assert (Hn : Z.of_nat (length folds) = k_fold) by lia.
  exists folds. do 3 eexists. split; [reflexivity|]. split; [reflexivity|].
  split; [cbn [k_fold_plan]; now rewrite map_nth_seq|].
  assert (Hval : (if ((Z.of_nat 0 <=? it - 1) && (it - 1 <? Z.of_nat (0 + length folds)))%Z
                  then nth (Z.to_nat (it - 1)) folds [] else [])
                 = (if (it - 1 <? 0)%Z then [] else nth (Z.to_nat (it - 1)) folds [])).
  { destruct (Z.ltb_spec (it - 1) 0).
    - replace (Z.of_nat 0 <=? it - 1)%Z with false; trivial.
      symmetry. apply Z.leb_gt. lia.
    - replace (Z.of_nat 0 <=? it - 1)%Z with true by (symmetry; apply Z.leb_le; lia).
      cbn [andb]. destruct (Z.ltb_spec (it - 1) (Z.of_nat (0 + length folds))); trivial.
      rewrite nth_overflow; trivial. lia. }
  rewrite Hval. split; [reflexivity|]. split.
  - apply perm_trans with s; [|apply shuffle_perm]. rewrite <- Hcat.
    destruct (Z.ltb_spec (it - 1) 0).
    + cbn [app]. rewrite others_out_of_range by lia. reflexivity.
    + rewrite others_in_range by lia. apply fold_and_others.
  - intros Hout. rewrite others_out_of_range by lia. split; [|exact Hcat].
    destruct (Z.ltb_spec (it - 1) 0); trivial. apply nth_overflow. lia.
Qed.

(** X3.  A new k-fold plan is the split of the shuffled records into [k] folds.
    The validation set is fold [k_fold_iter - 1], the training set the other
    folds in order, and together they hold every record once.  An iteration
    beyond [k] (or a negative one) is not refused: the validation set is
    empty and every record is a training record. *)
Theorem k_fold_plan_partition
        (globbed slide_list : list string) (num_val_of : nat -> Z)
        (k_fold it : Z) (rand : nat -> nat) :
  (1 <= k_fold)%Z -> it <> 0%Z ->
  exists folds training validation plan,
    split (shuffled_tfrecords globbed slide_list rand) k_fold = Ok folds /\
    get_training_and_validation_tfrecords
      globbed [] slide_list "k-fold" num_val_of k_fold (Some it) rand None
    = Ok ((training, validation), Some plan) /\
    k_fold_plan plan = Some (map (map last_component) folds) /\
    validation = (if (it - 1 <? 0)%Z then [] else nth (Z.to_nat (it - 1)) folds []) /\
    Permutation (validation ++ training) (filter (in_slide_list slide_list) globbed) /\
    ((it < 0 \/ k_fold < it)%Z ->
     validation = [] /\ training = shuffled_tfrecords globbed slide_list rand).
Proof.
  intros Hk Hit.
  destruct (new_k_fold_plan_run globbed slide_list num_val_of rand Hk Hit)
    as (folds & training & validation & plan & Hsplit & Hrun & Hplan & Hval & Hperm & Hout).
  exists folds, training, validation, plan.
  split; [exact Hsplit|]. split; [exact Hrun|]. split; [exact Hplan|].
  split; [exact Hval|]. split; [exact Hperm | exact Hout].
Qed.

(** Three records in two folds, iteration 1 and iteration 3. *)
Lemma k_fold_plan_iterations :
  let run it :=
    get_training_and_validation_tfrecords
      ["/d/a.tfrecords"; "/d/b.tfrecords"; "/d/c.tfrecords"]%string []
      ["a"; "b"; "c"]%string "k-fold"%string (fun _ => 0%Z) 2 (Some it)
      (fun _ => 1) None in
  (exists plan, run 1%Z
                = Ok ((["/d/b.tfrecords"], ["/d/a.tfrecords"; "/d/c.tfrecords"])%string,
                      plan)) /\
  (exists plan, run 3%Z
                = Ok ((["/d/a.tfrecords"; "/d/c.tfrecords"; "/d/b.tfrecords"], [])%string,
                      plan)).
Proof.
  intros run.
  split;
    [ destruct (@k_fold_plan_partition
                  ["/d/a.tfrecords"; "/d/b.tfrecords"; "/d/c.tfrecords"]%string
                  ["a"; "b"; "c"]%string (fun _ => 0%Z) 2 1 (fun _ => 1))
      as (f & t & v & plan & _ & Hrun & _); [lia | discriminate |]
    | destruct (@k_fold_plan_partition
                  ["/d/a.tfrecords"; "/d/b.tfrecords"; "/d/c.tfrecords"]%string
                  ["a"; "b"; "c"]%string (fun _ => 0%Z) 2 3 (fun _ => 1))
      as (f & t & v & plan & _ & Hrun & _); [lia | discriminate |] ];
    exists (Some plan); unfold run; rewrite Hrun; vm_compute in Hrun;
    injection Hrun as <- <- _; reflexivity.
Defined.

(** ** Errors of the k-fold branch *)

(** X4.  Without an iteration ([k_fold_iter] absent or zero) a new k-fold plan is
    never written: [k_fold_index] is unbound when the loop first compares
    with it, and the call ends in [NameError]. *)
Theorem k_fold_without_iteration_raises
        (globbed slide_list : list string) (num_val_of : nat -> Z)
        (k_fold : Z) (k_fold_iter : option Z) (rand : nat -> nat) :
  (1 <= k_fold)%Z ->
  k_fold_iter = None \/ k_fold_iter = Some 0%Z ->
  get_training_and_validation_tfrecords
    globbed [] slide_list "k-fold" num_val_of k_fold k_fold_iter rand None
  = Raise NameError.
Proof.
  intros Hk Hit.
  set (s := shuffled_tfrecords globbed slide_list rand).
  destruct (split_spec s Hk) as (folds & Hsplit & Hlen & _).
  unfold get_training_and_validation_tfrecords. simpl. fold s.
  unfold new_k_fold_plan. rewrite Hsplit. cbn [bind].
  assert (Hidx : k_fold_index k_fold_iter = None)
    by (destruct Hit as [-> | ->]; reflexivity).
  rewrite Hidx. unfold range.
  destruct (Z.to_nat k_fold) as [|n] eqn:E; [lia|]. reflexivity.
Qed.

Lemma k_fold_without_iteration_sample :
  get_training_and_validation_tfrecords
    ["/d/a.tfrecords"; "/d/b.tfrecords"]%string [] ["a"; "b"]%string "k-fold"
    (fun _ => 0%Z) 2 None (fun _ => 0) None
  = Raise NameError.
Proof.
  apply k_fold_without_iteration_raises; [lia | now left].
Defined.

(** ** What a call returns and what it leaves of the plan file *)

Lemma in_k_fold_pieces A (recs : list (list A)) (idx : Z) (s len : nat) (x : A) :
  In x (concat (map (fun k => if (Z.of_nat k =? idx)%Z then [] else nth k recs [])
                    (seq s len))) ->
  In x (concat recs).
Proof.
  intros H. apply in_concat in H. destruct H as (l & Hl & Hx).
  apply in_map_iff in Hl. destruct Hl as (k & <- & _).
  destruct (Z.of_nat k =? idx)%Z; [contradiction|].
  now apply (in_nth_concat recs k).
Qed.

Lemma new_k_fold_plan_records (k_fold : Z) (k_fold_iter : option Z)
      (tfrecords : list string) (plan : validation_plan)
      (training validation : list string) (log : option validation_plan) :
  new_k_fold_plan k_fold k_fold_iter tfrecords plan = Ok ((training, validation), log) ->
  (forall x, In x training \/ In x validation -> In x tfrecords) /\
  exists folds, log = Some {| fixed := fixed plan; k_fold_plan := Some folds |}.
Proof.
  unfold new_k_fold_plan, split.
  destruct (Z.eqb_spec k_fold 0) as [->|Hk0]; [discriminate|]. cbn [bind].
  destruct (Z.le_gt_cases 1 k_fold) as [Hk|Hk].
  - destruct (split_spec tfrecords Hk) as (folds & Hsplit & Hlen & Hcat & _).
    unfold split in Hsplit.
    destruct (Z.eqb_spec k_fold 0); [contradiction|].
    injection Hsplit as Hsplit. rewrite Hsplit.
    destruct (k_fold_index k_fold_iter) as [idx|] eqn:Hidx.
    + unfold range. rewrite <- Hlen. rewrite k_fold_loop_full by lia.
      cbn [bind app]. intros [= <- <- <-]. split; [|eauto].
      intros x [Hx|Hx]; rewrite <- Hcat.
      * now apply in_k_fold_pieces in Hx.
      * match type of Hx with In x (if ?b then _ else _) => destruct b end;
          [|contradiction].
        now apply (in_nth_concat folds (Z.to_nat idx)).
    + unfold range. destruct (Z.to_nat k_fold) as [|m] eqn:E; [lia|].
      discriminate.
  - unfold range. replace (Z.to_nat k_fold) with 0 by lia.
    simpl. intros [= <- <- <-]. split; [|eauto]. intros x [[]|[]].
Qed.

(** X5.  Every record a call returns, for training or for validation, is one of
    the records found in the directory and belongs to a slide of the slide
    list, whatever the strategy and whatever plan file the call found. *)
Theorem returned_records_are_of_the_slide_list
        (globbed slide_list : list string) (val_strategy : string)
        (num_val_of : nat -> Z) (k_fold : Z) (k_fold_iter : option Z)
        (rand : nat -> nat) (validation_log log : option validation_plan)
        (training validation : list string) :
  get_training_and_validation_tfrecords
    globbed [] slide_list val_strategy num_val_of k_fold k_fold_iter rand validation_log
  = Ok ((training, validation), log) ->
  forall x, In x training \/ In x validation ->
            In x globbed /\ in_slide_list slide_list x = true.
Proof.
  intros Hrun x Hx.
  set (s := shuffled_tfrecords globbed slide_list rand) in *.
  assert (Hs : In x s).
  { revert Hrun. unfold get_training_and_validation_tfrecords. fold s. simpl.
    assert (Hfixed : forall plan,
               new_fixed_plan num_val_of s plan = Ok ((training, validation), log) ->
               In x s).
    { unfold new_fixed_plan. intros plan [= <- <- _].
      destruct Hx as [Hx|Hx]; [now apply in_slice_from in Hx | now apply in_slice in Hx]. }
    assert (Hkfold : forall plan,
               new_k_fold_plan k_fold k_fold_iter s plan = Ok ((training, validation), log) ->
               In x s).
    { intros plan H. apply new_k_fold_plan_records in H. now apply (proj1 H). }
    assert (Hfilter : forall f g : string -> bool,
               Ok ((filter f s, filter g s), validation_log)
               = Ok ((training, validation), log) -> In x s).
    { intros f g [= <- <- _].
      destruct Hx as [Hx|Hx]; apply filter_In in Hx; apply Hx. }
    destruct (String.eqb val_strategy "bootstrap").
    { intros [= <- <- _].
      destruct Hx as [Hx|Hx]; [now apply in_slice_from in Hx | now apply in_slice in Hx]. }
    destruct (String.eqb val_strategy "fixed").
    { destruct validation_log as [plan|]; [|apply Hfixed].
      destruct (fixed plan) as [logged|]; [|apply Hfixed].
      destruct (negb _); [apply Hfixed|].
      destruct (forallb _ logged); [apply Hfilter | apply Hfixed]. }
    destruct (String.eqb val_strategy "k-fold").
    { destruct validation_log as [plan|]; [|apply Hkfold].
      destruct (k_fold_plan plan) as [folds|]; [|apply Hkfold].
      destruct (negb _); [apply Hkfold|].
      destruct (negb _); [apply Hkfold|].
      destruct (forallb _ (concat folds)); [|apply Hkfold].
      destruct s as [|r s'] eqn:Es.
      - intros [= <- <- _]. destruct Hx as [[]|[]].
      - destruct (k_fold_index k_fold_iter); [|discriminate]. cbn [bind].
        destruct (index folds z); [|discriminate]. cbn [bind]. apply Hfilter. }
    destruct (String.eqb val_strategy "none").
    { intros [= <- <- _]. destruct Hx as [Hx|[]]. exact Hx. }
    intros [= <- <- _]. destruct Hx as [[]|[]]. }
  unfold s, shuffled_tfrecords in Hs.
  apply (Permutation_in _ (shuffle_perm rand _)) in Hs.
  now apply filter_In in Hs.
Qed.

Lemma returned_records_sample :
  In "/d/a.tfrecords"%string ["/d/a.tfrecords"; "/d/x.tfrecords"]%string /\
  in_slide_list ["a"; "b"]%string "/d/a.tfrecords" = true.
Proof.
  apply (@returned_records_are_of_the_slide_list
           ["/d/a.tfrecords"; "/d/x.tfrecords"]%string ["a"; "b"]%string "none"
           (fun _ => 0%Z) 0 None (fun _ => 0) None None
           ["/d/a.tfrecords"]%string []); [reflexivity | left; now left].
Defined.

(** X6.  A call writes at most the entry of its own strategy: a fixed split never
    changes the k-fold entry of the plan file, a k-fold split never the fixed
    entry, and bootstrap, none and unknown strategies leave the file as it
    is. *)
Theorem plan_file_entries_are_kept
        (globbed slide_list : list string) (val_strategy : string)
        (num_val_of : nat -> Z) (k_fold : Z) (k_fold_iter : option Z)
        (rand : nat -> nat) (validation_log log : option validation_plan)
        (tv : list string * list string) :
  get_training_and_validation_tfrecords
    globbed [] slide_list val_strategy num_val_of k_fold k_fold_iter rand validation_log
  = Ok (tv, log) ->
  let fixed_of (l : option validation_plan) :=
    match l with Some p => fixed p | None => None end in
  let k_fold_of (l : option validation_plan) :=
    match l with Some p => k_fold_plan p | None => None end in
  (val_strategy <> "fixed"%string -> fixed_of log = fixed_of validation_log) /\
  (val_strategy <> "k-fold"%string -> k_fold_of log = k_fold_of validation_log) /\
  (val_strategy <> "fixed"%string -> val_strategy <> "k-fold"%string ->
   log = validation_log).
Proof.
  intros Hrun fixed_of k_fold_of. revert Hrun.
  unfold get_training_and_validation_tfrecords. simpl.
  set (s := shuffled_tfrecords globbed slide_list rand).
  assert (Hfixed : forall plan,
             new_fixed_plan num_val_of s plan = Ok (tv, log) ->
             k_fold_of log = k_fold_plan plan).
  { unfold new_fixed_plan. now intros plan [= _ <-]. }
  assert (Hkfold : forall plan,
             new_k_fold_plan k_fold k_fold_iter s plan = Ok (tv, log) ->
             fixed_of log = fixed plan).
  { intros plan H. destruct tv as [t v].
    apply new_k_fold_plan_records in H. destruct H as (_ & folds & ->). reflexivity. }
  destruct (String.eqb_spec val_strategy "bootstrap") as [->|_].
  { intros [= _ <-]. repeat split. }
  destruct (String.eqb_spec val_strategy "fixed") as [->|Hnf].
  { intros H. split; [intros C; now contradiction C|].
    split; [intros _|intros C; now contradiction C]. revert H.
    destruct validation_log as [plan|]; [|apply Hfixed].
    destruct (fixed plan) as [logged|]; [|apply Hfixed].
    destruct (negb _); [apply Hfixed|].
    destruct (forallb _ logged); [|apply Hfixed].
    now intros [= _ <-]. }
  destruct (String.eqb_spec val_strategy "k-fold") as [->|Hnk].
  { intros H. split; [intros _|split; [intros C; now contradiction C|
                                       intros _ C; now contradiction C]].
    revert H.
    destruct validation_log as [plan|]; [|apply Hkfold].
    destruct (k_fold_plan plan) as [folds|]; [|apply Hkfold].
    destruct (negb _); [apply Hkfold|].
    destruct (negb _); [apply Hkfold|].
    destruct (forallb _ (concat folds)); [|apply Hkfold].
    destruct s as [|r s'].
    - now intros [= _ <-].
    - destruct (k_fold_index k_fold_iter); [|discriminate]. cbn [bind].
      destruct (index folds z); [|discriminate]. cbn [bind]. now intros [= _ <-]. }
  destruct (String.eqb val_strategy "none"); intros [= _ <-]; repeat split.
Qed.

(** A fixed split made beside a stored k-fold plan keeps that plan. *)
Lemma fixed_split_keeps_k_fold_entry :
  exists tv plan,
    get_training_and_validation_tfrecords
      ["/d/a.tfrecords"; "/d/b.tfrecords"]%string [] ["a"; "b"]%string "fixed"
      (fun _ => 1%Z) 2 None (fun _ => 1)
      (Some {| fixed := None;
               k_fold_plan := Some [["a.tfrecords"]; ["b.tfrecords"]]%string |})
    = Ok (tv, Some plan) /\
    k_fold_plan plan = Some [["a.tfrecords"]; ["b.tfrecords"]]%string /\
    fixed plan = Some ["a.tfrecords"]%string.
Proof.
  set (stored := {| fixed := None;
                    k_fold_plan := Some [["a.tfrecords"]; ["b.tfrecords"]]%string |}).
  set (plan := {| fixed := Some ["a.tfrecords"]%string;
                  k_fold_plan := Some [["a.tfrecords"]; ["b.tfrecords"]]%string |}).
  assert (Hrun : get_training_and_validation_tfrecords
                   ["/d/a.tfrecords"; "/d/b.tfrecords"]%string [] ["a"; "b"]%string
                   "fixed" (fun _ => 1%Z) 2 None (fun _ => 1) (Some stored)
                 = Ok ((["/d/b.tfrecords"], ["/d/a.tfrecords"])%string, Some plan))
    by (vm_compute; reflexivity).
  destruct (plan_file_entries_are_kept _ _ _ _ _ _ _ _ Hrun) as (_ & Hk & _).
  exists (["/d/b.tfrecords"], ["/d/a.tfrecords"])%string, plan.
  split; [exact Hrun|]. split; [|reflexivity].
  apply Hk. discriminate.
Defined.

(** ** A persisted k-fold plan takes precedence *)

(** X7.  The k-fold plan one generation writes is found and kept by every later
    call for a fold of it, whatever the later shuffle: the later call selects
    as validation records those the plan names in the fold asked for, as
    training records those it names in the other folds, and leaves the file
    as it is. *)
Theorem persisted_k_fold_plan_is_reused
        (globbed slide_list : list string) (num_val_of : nat -> Z)
        (k_fold it1 it2 : Z) (rand1 rand2 : nat -> nat) :
  (1 <= k_fold)%Z -> it1 <> 0%Z -> (1 <= it2 <= k_fold)%Z ->
  let run it := get_training_and_validation_tfrecords
                  globbed [] slide_list "k-fold" num_val_of k_fold (Some it) in
  exists tv1 plan folds,
    run it1 rand1 None = Ok (tv1, Some plan) /\
    k_fold_plan plan = Some folds /\
    run it2 rand2 (Some plan)
    = Ok ((filter (fun tfr =>
                     negb (mem (last_component tfr) (nth (Z.to_nat (it2 - 1)) folds []))
                     && mem (last_component tfr) (concat folds))
                  (shuffled_tfrecords globbed slide_list rand2),
           filter (fun tfr => mem (last_component tfr) (nth (Z.to_nat (it2 - 1)) folds []))
                  (shuffled_tfrecords globbed slide_list rand2)),
          Some plan).
Proof.
  intros Hk Hit1 Hit2 run. subst run.
  unfold get_training_and_validation_tfrecords. simpl.
  set (s1 := shuffled_tfrecords globbed slide_list rand1).
  set (s2 := shuffled_tfrecords globbed slide_list rand2).
  set (records := filter (in_slide_list slide_list) globbed).
  assert (Hp1 : Permutation s1 records) by apply shuffle_perm.
  assert (Hp2 : Permutation s2 records) by apply shuffle_perm.
  pose proof (Permutation_length Hp1) as Hl1.
  pose proof (Permutation_length Hp2) as Hl2.
  destruct (new_k_fold_plan_ok (k_fold_iter := Some it1) s1 empty_plan Hk eq_refl Hit1)
    as (f & t1 & v1 & Hsplit & Hnew).
  destruct (split_spec s1 Hk) as (f' & Hsplit' & Hlen & Hcat & _).
  rewrite Hsplit in Hsplit'. injection Hsplit' as <-.
  rewrite Hnew. do 3 eexists. split; [reflexivity|]. split; [reflexivity|].
  cbn [k_fold_plan].
  set (folds := map (map last_component) f).
  assert (Hlenf : length folds = Z.to_nat k_fold) by (unfold folds; now rewrite length_map).
  replace (Z.of_nat (length folds) =? k_fold)%Z with true
    by (symmetry; apply Z.eqb_eq; lia).
  assert (Hconcat : concat folds = map last_component s1)
    by (unfold folds; now rewrite <- concat_map, Hcat).
  replace (length (concat folds) =? length s2) with true
    by (symmetry; apply Nat.eqb_eq; now rewrite Hconcat, length_map, Hl1, Hl2).
  replace (forallb (fun tf => mem (drop_suffix10 tf) slide_list) (concat folds)) with true.
  - cbn [negb]. cbv iota.
    destruct s2 as [|r s2'] eqn:Es2; [reflexivity|].
    unfold k_fold_index. destruct (Z.eqb_spec it2 0); [lia|]. cbn [bind].
    replace (it2 - 1)%Z with (Z.of_nat (Z.to_nat (it2 - 1))) at 1 by lia.
    rewrite (index_nth _ []) by lia. reflexivity.
  - symmetry. apply forallb_forall. intros tf Htf. rewrite Hconcat in Htf.
    apply in_map_iff in Htf. destruct Htf as (tfr & <- & Hin).
    apply (Permutation_in _ Hp1) in Hin. unfold records in Hin.
    apply filter_In in Hin. apply Hin.
Qed.

(** The plan of iteration 1 serves iteration 2: the validation record is the
    second fold of the stored plan, whatever the second shuffle. *)
Lemma persisted_k_fold_plan_sample :
  exists tv1 plan,
    get_training_and_validation_tfrecords
      ["/d/a.tfrecords"; "/d/b.tfrecords"]%string [] ["a"; "b"]%string "k-fold"
      (fun _ => 0%Z) 2 (Some 1%Z) (fun _ => 1) None = Ok (tv1, Some plan) /\
    get_training_and_validation_tfrecords
      ["/d/a.tfrecords"; "/d/b.tfrecords"]%string [] ["a"; "b"]%string "k-fold"
      (fun _ => 0%Z) 2 (Some 2%Z) (fun _ => 0) (Some plan)
    = Ok ((["/d/a.tfrecords"], ["/d/b.tfrecords"])%string, Some plan).
Proof.
  destruct (@persisted_k_fold_plan_is_reused
              ["/d/a.tfrecords"; "/d/b.tfrecords"]%string ["a"; "b"]%string
              (fun _ => 0%Z) 2 1 2 (fun _ => 1) (fun _ => 0))
    as (tv1 & plan & folds & H1 & Hf & H2); [lia | discriminate | lia |].
  exists tv1, plan. split; [exact H1|]. rewrite H2.
  vm_compute in H1. injection H1 as _ <-. injection Hf as <-.
  vm_compute. reflexivity.
Defined.

(** Two records, one of them for validation: the plan of the first call
    decides the second. *)
Lemma persisted_fixed_plan_sample :
  exists tv1 plan,
    get_training_and_validation_tfrecords
      ["/d/a.tfrecords"; "/d/b.tfrecords"]%string [] ["a"; "b"]%string "fixed"
      (fun _ => 1%Z) 0 None (fun _ => 1) None = Ok (tv1, Some plan) /\
    get_training_and_validation_tfrecords
      ["/d/a.tfrecords"; "/d/b.tfrecords"]%string [] ["a"; "b"]%string "fixed"
      (fun _ => 1%Z) 0 None (fun _ => 0) (Some plan)
    = Ok ((["/d/b.tfrecords"], ["/d/a.tfrecords"])%string, Some plan).
Proof.
  destruct (@persisted_fixed_plan_is_reused
              ["/d/a.tfrecords"; "/d/b.tfrecords"]%string ["a"; "b"]%string
              (fun _ => 1%Z) 0 None (fun _ => 1) (fun _ => 0))
    as (tv1 & plan & logged & H1 & Hf & H2); [simpl; lia|].
  exists tv1, plan. split; [exact H1|]. rewrite H2.
  vm_compute in H1. injection H1 as _ <-. injection Hf as <-.
  vm_compute. reflexivity.
Defined.

End PlannerMore.

(* ================================================================== *)
(** * Properties of GPU locks, model selection and fold selection *)
(* ================================================================== *)

Module InitFacts.
Import Py Init.

(** ** GPU locks *)

(** The loop either finds every GPU it tries locked and changes nothing, or
    claims the first free one. *)
Lemma autoselect_from_seq (st : gpu_state) :
  forall (len s : nat),
    ((forall m, s <= m < s + len -> lock_file st (Z.of_nat m) = true) /\
     autoselect_from (map Z.of_nat (seq s len)) st = st)
    \/
    (exists g, s <= g < s + len /\
               lock_file st (Z.of_nat g) = false /\
               (forall m, s <= m < g -> lock_file st (Z.of_nat m) = true) /\
               autoselect_from (map Z.of_nat (seq s len)) st
               = {| lock_file := fun m => (m =? Z.of_nat g)%Z || lock_file st m;
                    GPU_LOCK := Some (Z.of_nat g);
                    CUDA_VISIBLE_DEVICES := Some (Z.of_nat g) |}).
Proof.
  induction len as [|len IH]; intros s.
  - left. split; [intros m Hm; lia | reflexivity].
  - cbn [seq map autoselect_from].
    destruct (lock_file st (Z.of_nat s)) eqn:Hs; cbn [negb].
    + destruct (IH (S s)) as [[Hall Heq] | (g & Hg & Hfree & Hlow & Heq)].
      * left. split; [|exact Heq]. intros m Hm.
        destruct (Nat.eq_dec m s) as [->|Hne]; [exact Hs | apply Hall; lia].
      * right. exists g. split; [lia|]. split; [exact Hfree|]. split; [|exact Heq].
        intros m Hm. destruct (Nat.eq_dec m s) as [->|Hne]; [exact Hs | apply Hlow; lia].
    + right. exists s. split; [lia|]. split; [exact Hs|]. split; [intros m Hm; lia|].
      reflexivity.
Qed.

(** X8.  [autoselect_gpu] claims the lowest-numbered GPU of the pool that has no
    lock file: it writes that GPU's lock file and no other, and records the
    GPU in [GPU_LOCK] and in CUDA_VISIBLE_DEVICES.  It never claims a GPU
    whose lock file exists, and when every GPU of the pool is locked it
    changes nothing. *)
Theorem autoselect_gpu_claims_lowest_free (number_available : Z) (st : gpu_state) :
  ((forall m, (0 <= m < number_available)%Z -> lock_file st m = true) /\
   autoselect_gpu number_available st = st)
  \/
  (exists g, (0 <= g < number_available)%Z /\
             lock_file st g = false /\
             (forall m, (0 <= m < g)%Z -> lock_file st m = true) /\
             GPU_LOCK (autoselect_gpu number_available st) = Some g /\
             CUDA_VISIBLE_DEVICES (autoselect_gpu number_available st) = Some g /\
             lock_file (autoselect_gpu number_available st) g = true /\
             forall m, m <> g ->
                       lock_file (autoselect_gpu number_available st) m = lock_file st m).
Proof.
  unfold autoselect_gpu, range.
  destruct (autoselect_from_seq st (Z.to_nat number_available) 0)
    as [[Hall Heq] | (g & Hg & Hfree & Hlow & Heq)].
  - left. split; [|exact Heq]. intros m Hm.
    rewrite <- (Z2Nat.id m) by lia. apply Hall. lia.
  - right. exists (Z.of_nat g). rewrite Heq. cbn.
    split; [lia|]. split; [exact Hfree|].
    split; [intros m Hm; rewrite <- (Z2Nat.id m) by lia; apply Hlow; lia|].
    split; [reflexivity|]. split; [reflexivity|].
    split; [now rewrite Z.eqb_refl|].
    intros m Hm. destruct (Z.eqb_spec m (Z.of_nat g)); [contradiction|reflexivity].
Qed.

(** X9.  An instance that starts without a lock, selects a GPU and exits leaves
    the lock files as it found them. *)
Theorem autoselect_then_exit_restores_locks (number_available : Z) (st : gpu_state) :
  GPU_LOCK st = None ->
  forall m, lock_file (exit_script (autoselect_gpu number_available st)) m
            = lock_file st m.
Proof.
  intros Hnone m. unfold autoselect_gpu, range.
  destruct (autoselect_from_seq st (Z.to_nat number_available) 0)
    as [[_ Heq] | (g & _ & Hfree & _ & Heq)]; rewrite Heq.
  - unfold exit_script. now rewrite Hnone.
  - unfold exit_script. cbn. rewrite Z.eqb_refl. cbn.
    destruct (Z.eqb_spec m (Z.of_nat g)) as [->|_]; cbn; [now rewrite Hfree|reflexivity].
Qed.


(** GPU 0 is locked by someone else: a pool of two gives GPU 1 to the first
    instance and nothing to the second, and the first leaves on exit the one
    lock there was. *)
Lemma gpu_locks_sample :
  let st := {| lock_file := fun m => (m =? 0)%Z; GPU_LOCK := None;
               CUDA_VISIBLE_DEVICES := None |} in
  GPU_LOCK (autoselect_gpu 2 st) = Some 1%Z /\
  GPU_LOCK (autoselect_gpu 2 (other_instance (autoselect_gpu 2 st))) = None /\
  lock_file (exit_script (autoselect_gpu 2 st)) 1%Z = false /\
  lock_file (exit_script (autoselect_gpu 2 st)) 0%Z = true.
Proof.
  intros st. split; [reflexivity|]. split; [reflexivity|].
  split; rewrite (@autoselect_then_exit_restores_locks 2 st eq_refl); reflexivity.
Defined.


(** ** Model selection *)

Lemma mem_iff_In (x : string) (l : list string) : mem x l = true <-> In x l.
Proof.
  unfold mem. rewrite existsb_exists. split.
  - intros (y & Hy & E). apply String.eqb_eq in E. now subst.
  - intros H. exists x. split; [exact H | apply String.eqb_refl].
Qed.

Lemma NoDup_snoc (acc : list string) (n : string) :
  NoDup acc -> ~ In n acc -> NoDup (acc ++ [n]).
Proof.
  intros Hacc Hn. apply NoDup_app; [exact Hacc | repeat constructor; intros [] |].
  intros a Ha [<-|[]]. contradiction.
Qed.

(** The loop in terms of the names it reads: it returns the requested names
    in order when no requested name comes twice, and exits otherwise. *)
Lemma scan_rows_selected (model_name_i : nat) (models : models_arg) :
  forall (rows : list (list string)) (acc : list string),
    Forall (fun row => model_name_i < length row) rows ->
    NoDup acc ->
    let selected :=
      filter (requested models) (map (fun row => nth model_name_i row ""%string) rows) in
    (NoDup (acc ++ selected) ->
     scan_rows rows model_name_i models acc = Ok (acc ++ selected)) /\
    (~ NoDup (acc ++ selected) ->
     scan_rows rows model_name_i models acc = Raise SystemExit).
Proof.
  induction rows as [|row rows IH]; intros acc Hrows Hacc; cbn zeta.
  - cbn. rewrite app_nil_r. split; [reflexivity | intros H; contradiction].
  - inversion Hrows as [|? ? Hrow Hrows']; subst.
    cbn [scan_rows map filter]. rewrite (PlannerFacts.index_nth _ ""%string) by exact Hrow.
    cbn [bind]. set (n := nth model_name_i row ""%string).
    destruct (requested models n) eqn:Hreq.
    + destruct (mem n acc) eqn:Hmem.
      * apply mem_iff_In in Hmem. split; [|reflexivity].
        intros Hnd. exfalso.
        apply (PlannerFacts.NoDup_app_disjoint _ _ n Hnd Hmem). now left.
      * assert (Hn : ~ In n acc)
          by (intros C; apply mem_iff_In in C; congruence).
        specialize (IH (acc ++ [n]) Hrows' (@NoDup_snoc acc n Hacc Hn)). cbn zeta in IH.
        rewrite <- app_assoc in IH. exact IH.
    + exact (IH acc Hrows' Hacc).
Qed.



Lemma prefix_app (a b : string) : String.prefix a (a ++ b) = true.
Proof.
  induction a as [|c a IH]; simpl.
  - now destruct b.
  - destruct (Ascii.ascii_dec c c) as [_|C]; [exact IH | now contradiction C].
Qed.

Lemma occurs_in_prefix (a b : string) :
  String.prefix a b = true -> occurs_in a b = true.
Proof. intros H. destruct b; cbn [occurs_in]; rewrite H; reflexivity. Qed.

Lemma occurs_in_middle (a name b : string) : occurs_in name (a ++ name ++ b) = true.
Proof.
  induction a as [|c a IH].
  - change (occurs_in name (name ++ b) = true). apply occurs_in_prefix, prefix_app.
  - cbn [append occurs_in]. rewrite IH. apply orb_true_r.
Qed.

(** X12.  When [models] is a single name the test [model_name in models] is a test
    on strings: every row whose name occurs somewhere in the name asked for
    is selected, not only the row that bears it. *)
Theorem string_argument_selects_contained_names (a name b : string) :
  requested (ModelsStr (a ++ name ++ b)) name = true /\
  forall header rows model_name_i,
    index_of "model_name" header = Some model_name_i ->
    Forall (fun row => model_name_i < length row) rows ->
    forall l, _get_valid_models header rows (ModelsStr (a ++ name ++ b)) = Ok l ->
              forall row, In row rows -> nth model_name_i row ""%string = name ->
                          In name l.
Proof.
  assert (Hreq : requested (ModelsStr (a ++ name ++ b)) name = true)
    by (unfold requested; rewrite occurs_in_middle; now rewrite !orb_true_r).
  split; [exact Hreq|].
  intros header rows i Hhead Hrows l Hl row Hrow Hname.
  unfold _get_valid_models in Hl. rewrite Hhead in Hl.
  destruct (@scan_rows_selected i (ModelsStr (a ++ name ++ b)) rows []
                                Hrows (NoDup_nil _)) as [Hok Hdup].
  cbn [app] in Hok, Hdup.
  set (selected := filter _ _) in *.
  assert (Hnd : NoDup selected).
  { destruct (ListDec.NoDup_dec string_dec selected) as [H|H]; [exact H|].
    rewrite (Hdup H) in Hl. discriminate. }
  rewrite (Hok Hnd) in Hl. injection Hl as <-.
  unfold selected. apply filter_In. split; [|exact Hreq].
  apply in_map_iff. exists row. now split.
Qed.

(** Asked for "model10", the file's "model1" is trained too. *)
Lemma string_argument_sample :
  _get_valid_models ["model_name"]%string [["model1"]; ["model10"]; ["other"]]%string
                    (ModelsStr "model10")
  = Ok ["model1"; "model10"]%string /\
  In "model1"%string ["model1"; "model10"]%string.
Proof.
  split; [reflexivity|].
  apply (proj2 (@string_argument_selects_contained_names "" "model1" "0")
               ["model_name"]%string [["model1"]; ["model10"]; ["other"]]%string 0
               eq_refl (ltac:(repeat constructor)) _ (eq_refl)
               ["model1"]%string (or_introl eq_refl) eq_refl).
Defined.

(** ** The folds [train] trains *)

Lemma in_range (n j : Z) : In j (range n) <-> (0 <= j < n)%Z.
Proof.
  unfold range. rewrite in_map_iff. split.
  - intros (m & <- & Hm). apply in_seq in Hm. lia.
  - intros Hj. exists (Z.to_nat j). split; [lia|]. apply in_seq. lia.
Qed.

Lemma NoDup_range (n : Z) : NoDup (range n).
Proof.
  unfold range. apply Finite.Injective_map_NoDup; [|apply seq_NoDup].
  intros a b. apply Nat2Z.inj.
Qed.

Lemma in_valid_k (k_fold : Z) (k_fold_iter : k_fold_iter_arg) (j : Z) :
  k_fold <> 0%Z ->
  (In j (valid_k k_fold k_fold_iter) <->
   (0 <= j < k_fold)%Z /\
   match as_list k_fold_iter with
   | Some ((_ :: _) as l) => In j l
   | _ => True
   end).
Proof.
  intros Hk. unfold valid_k. destruct (Z.eqb_spec k_fold 0); [contradiction|].
  rewrite filter_In, in_range.
  destruct (as_list k_fold_iter) as [[|x l]|]; try tauto.
  rewrite existsb_exists. split.
  - intros [Hj (y & Hy & E)]. apply Z.eqb_eq in E. now subst.
  - intros [Hj Hin]. split; [exact Hj|]. exists j. split; [exact Hin|apply Z.eqb_refl].
Qed.

(** X13.  [train] starts one trainer per valid fold, in ascending order and none
    twice, numbered [kf + 1] for the [kf] of [range(k_fold)] that the
    [k_fold_iter] argument holds, or for every [kf] when the argument is
    absent or empty: the numbers passed on lie in [1 .. k_fold], and a
    requested [kf] outside [0 .. k_fold - 1] starts nothing.  Without k-fold
    validation there is one trainer, with no fold. *)
Theorem trainer_calls_are_the_valid_folds
        (validation_strategy : string) (validation_k_fold : Z)
        (k_fold_iter : k_fold_iter_arg) :
  let k_fold := train_k_fold validation_strategy validation_k_fold in
  let calls := trainer_calls validation_strategy validation_k_fold k_fold_iter in
  (k_fold = 0%Z -> calls = [None]) /\
  (k_fold <> 0%Z ->
   ~ In None calls /\
   forall i, In (Some i) calls <->
             (1 <= i <= k_fold)%Z /\
             match as_list k_fold_iter with
             | Some ((_ :: _) as l) => In (i - 1)%Z l
             | _ => True
             end) /\
  NoDup calls.
Proof.
  intros k_fold calls. subst calls. unfold trainer_calls. fold k_fold.
  split; [intros ->; reflexivity|]. split.
  - intros Hk. destruct (Z.eqb_spec k_fold 0); [contradiction|]. split.
    + rewrite in_map_iff. intros (x & Hx & _). discriminate.
    + intros i. rewrite in_map_iff. split.
      * intros (j & [= <-] & Hj). apply (in_valid_k k_fold_iter j) in Hj; [|assumption].
        replace (j + 1 - 1)%Z with j by lia. split; [lia | apply Hj].
      * intros [Hi Hw]. exists (i - 1)%Z. split; [f_equal; lia|].
        apply in_valid_k; [assumption|]. split; [lia | exact Hw].
  - destruct (Z.eqb_spec k_fold 0); [repeat constructor; intros []|].
    apply Finite.Injective_map_NoDup.
    + intros a b [= H]. lia.
    + unfold valid_k. destruct (k_fold =? 0)%Z; [constructor|].
      apply NoDup_filter, NoDup_range.
Qed.

(** X14.  Every fold [train] starts a trainer for finds, in a directory without a
    plan, a call of [get_training_and_validation_tfrecords] that succeeds:
    the fold number is bound and in range, the plan is written, and the
    validation set is that fold of the split. *)
Theorem trained_folds_get_their_validation_set
        (globbed slide_list : list string) (num_val_of : nat -> Z)
        (validation_k_fold : Z) (k_fold_iter : k_fold_iter_arg) (i : Z)
        (rand : nat -> nat) :
  (1 <= validation_k_fold)%Z ->
  In (Some i) (trainer_calls "k-fold" validation_k_fold k_fold_iter) ->
  exists folds training plan,
    Planner.split (Planner.shuffled_tfrecords globbed slide_list rand) validation_k_fold
    = Ok folds /\
    Z.to_nat (i - 1) < length folds /\
    Planner.get_training_and_validation_tfrecords
      globbed [] slide_list "k-fold" num_val_of validation_k_fold (Some i) rand None
    = Ok ((training, nth (Z.to_nat (i - 1)) folds []), Some plan).
Proof.
  intros Hk Hin.
  assert (Hi : (1 <= i <= validation_k_fold)%Z).
  { unfold trainer_calls, train_k_fold in Hin. simpl in Hin.
    destruct (Z.eqb_spec validation_k_fold 0); [lia|].
    apply in_map_iff in Hin. destruct Hin as (j & [= <-] & Hj).
    apply in_valid_k in Hj; lia. }
  destruct (PlannerMore.new_k_fold_plan_run globbed slide_list num_val_of rand Hk
                                            (it := i) ltac:(lia))
    as (folds & training & validation & plan & Hsplit & Hrun & _ & Hval & _).
  destruct (PlannerFacts.split_spec (Planner.shuffled_tfrecords globbed slide_list rand) Hk)
    as (folds' & Hsplit' & Hlen & _).
  rewrite Hsplit in Hsplit'. injection Hsplit' as <-.
  exists folds, training, plan. split; [exact Hsplit|]. split; [lia|].
  rewrite Hrun, Hval. destruct (Z.ltb_spec (i - 1) 0); [lia | reflexivity].
Qed.

(** Three folds, the second and a fourth asked for: one trainer, for fold 2
    numbered 3, which finds its validation set. *)
Lemma trainer_calls_sample :
  trainer_calls "k-fold" 3 (IterList [2; 4]%Z) = [Some 3%Z] /\
  exists folds training plan,
    Planner.split
      (Planner.shuffled_tfrecords
         ["/d/a.tfrecords"; "/d/b.tfrecords"; "/d/c.tfrecords"]%string
         ["a"; "b"; "c"]%string (fun _ => 1)) 3 = Ok folds /\
    Planner.get_training_and_validation_tfrecords
      ["/d/a.tfrecords"; "/d/b.tfrecords"; "/d/c.tfrecords"]%string []
      ["a"; "b"; "c"]%string "k-fold" (fun _ => 0%Z) 3 (Some 3%Z) (fun _ => 1) None
    = Ok ((training, nth 2 folds []), Some plan).
Proof.
  split; [vm_compute; reflexivity|].
  destruct (@trained_folds_get_their_validation_set
              ["/d/a.tfrecords"; "/d/b.tfrecords"; "/d/c.tfrecords"]%string
              ["a"; "b"; "c"]%string (fun _ => 0%Z) 3 (IterList [2; 4]%Z) 3 (fun _ => 1))
    as (folds & training & plan & Hsplit & _ & Hrun); [lia | now left |].
  now exists folds, training, plan.
Defined.

(** The folds of the sample, through the theorem on trainer calls. *)
Lemma trainer_calls_in_range_sample :
  train_k_fold "k-fold" 3 <> 0%Z /\
  (In (Some 3%Z) (trainer_calls "k-fold" 3 (IterList [2; 4]%Z)) <->
   (1 <= 3 <= 3)%Z /\ In (3 - 1)%Z [2; 4]%Z).
Proof.
  split; [discriminate|].
  destruct (@trainer_calls_are_the_valid_folds "k-fold" 3 (IterList [2; 4]%Z))
    as (_ & H & _).
  destruct H as [_ H]; [discriminate|]. apply (H 3%Z).
Defined.

End InitFacts.

(* ================================================================== *)
(** * Further properties of the orchestrator *)
(* ================================================================== *)

Module ProjectFacts.
Import Py Orchestrator OrchestratorFacts Project.

(** ** Slides without a record *)

Lemma mem_del_first_sub (x s : string) (l : list string) :
  mem x (del_first s l) = true -> mem x l = true.
Proof.
  induction l as [|y l IH]; simpl; trivial.
  destruct (String.eqb s y); simpl.
  - intros ->. apply orb_true_r.
  - destruct (String.eqb x y); simpl; auto.
Qed.

Lemma mem_drop_interrupted_sub (x : string) (interrupted already : list string) :
  mem x (drop_interrupted interrupted already) = true -> mem x already = true.
Proof.
  unfold drop_interrupted. revert already.
  induction interrupted as [|s interrupted IH]; intros already; simpl; trivial.
  intros H. apply IH in H. destruct (mem s already); [|exact H].
  now apply mem_del_first_sub in H.
Qed.

(** X15.  Whatever the options, the records and the markers are, a slide whose
    record does not exist is never skipped: when [extract_tiles] goes on to
    extract, the slide is among the slides it processes. *)
Theorem slide_without_record_is_processed
        (path_to_name : string -> string) (save_tiles save_tfrecord skip_extracted : bool)
        (slide_list tfrecords markers processed : list string) (slide : string) :
  extract_tiles path_to_name save_tiles save_tfrecord skip_extracted
                slide_list tfrecords markers = Some processed ->
  In slide slide_list ->
  ~ In (path_to_name slide) (map path_to_name tfrecords) ->
  In slide processed.
Proof.
  unfold extract_tiles. intros Hrun Hin Hrec.
  destruct (negb save_tiles && negb save_tfrecord); [discriminate|].
  destruct (skip_extracted && save_tfrecord); injection Hrun as <-; [|exact Hin].
  apply filter_In. split; [exact Hin|]. apply negb_true_iff.
  rewrite drop_interrupted_guard.
  destruct (mem (path_to_name slide) (drop_interrupted _ _)) eqn:E; trivial.
  apply mem_drop_interrupted_sub, mem_In in E. contradiction.
Qed.

Lemma slide_without_record_sample :
  In "s3"%string ["s3"]%string.
Proof.
  apply (@slide_without_record_is_processed
           (fun p => p) false true true ["s1"; "s2"; "s3"]%string
           ["s1"; "s1"; "s2"]%string ["s1"]%string ["s3"]%string "s3"%string).
  - reflexivity.
  - simpl; tauto.
  - simpl; intuition discriminate.
Defined.

(** X16.  An interrupted marker only adds work: with every record listed once,
    the slides processed without a marker are still processed with it. *)
Theorem marker_only_adds_slides
        (path_to_name : string -> string) (save_tiles save_tfrecord skip_extracted : bool)
        (slide_list tfrecords markers : list string) (marker : string)
        (processed : list string) :
  NoDup (map path_to_name tfrecords) ->
  extract_tiles path_to_name save_tiles save_tfrecord skip_extracted
                slide_list tfrecords markers = Some processed ->
  exists processed',
    extract_tiles path_to_name save_tiles save_tfrecord skip_extracted
                  slide_list tfrecords (marker :: markers) = Some processed' /\
    incl processed processed' /\
    forall slide, In slide processed' -> ~ In slide processed ->
                  path_to_name slide = path_to_name marker.
Proof.
  intros Hnd. unfold extract_tiles.
  destruct (negb save_tiles && negb save_tfrecord); [discriminate|].
  destruct (skip_extracted && save_tfrecord).
  - rewrite !drop_interrupted_guard. intros [= <-]. eexists. split; [reflexivity|].
    assert (Hmem : forall slide,
               mem (path_to_name slide)
                   (drop_interrupted (map path_to_name (marker :: markers))
                                     (map path_to_name tfrecords))
               = mem (path_to_name slide) (map path_to_name tfrecords)
                 && negb (String.eqb (path_to_name slide) (path_to_name marker)
                          || mem (path_to_name slide) (map path_to_name markers)))
      by (intros slide; now rewrite mem_drop_interrupted by exact Hnd).
    split.
    + intros slide Hs. apply filter_In in Hs. destruct Hs as [Hin Hs].
      apply filter_In. split; [exact Hin|].
      rewrite mem_drop_interrupted in Hs by exact Hnd. rewrite Hmem.
      destruct (mem (path_to_name slide) (map path_to_name tfrecords)); trivial.
      destruct (mem (path_to_name slide) (map path_to_name markers));
        [now rewrite orb_true_r | discriminate].
    + intros slide Hs' Hs. apply filter_In in Hs'. destruct Hs' as [Hin Hs'].
      rewrite filter_In in Hs. rewrite mem_drop_interrupted in Hs by exact Hnd.
      rewrite Hmem in Hs'.
      destruct (String.eqb_spec (path_to_name slide) (path_to_name marker)) as [E|_];
        [exact E|].
      exfalso. apply Hs. split; [exact Hin | exact Hs'].
  - intros [= <-]. eexists. split; [reflexivity|]. split; [apply incl_refl|].
    intros slide H1 H2. contradiction.
Qed.

Lemma marker_only_adds_sample :
  exists processed',
    extract_tiles (fun p => p) false true true ["s1"; "s2"]%string ["s1"; "s2"]%string
                  ["s2"]%string = Some processed' /\
    incl [] processed'.
Proof.
  destruct (@marker_only_adds_slides
              (fun p => p) false true true ["s1"; "s2"]%string ["s1"; "s2"]%string
              [] "s2"%string [])
    as (p & Hrun & Hincl & _).
  - repeat constructor; simpl; intuition discriminate.
  - reflexivity.
  - now exists p.
Defined.

(** ** The sequential loop *)






(** X18.  An exception other than [TileCorruptionError] is not retried and is not
    caught by the loop: it ends the loop at the first attempt of the slide
    that raised it, and the slides after it are not opened. *)
Theorem other_exception_ends_the_loop
        (slide : nat -> bool -> attempt) (rest : list (nat -> bool -> attempt))
        (enable_downsample : bool) (e : exn) (log : list event) (fuel : nat) :
  slide 0 enable_downsample = Raises e ->
  e <> TileCorruptionError ->
  1 <= fuel ->
  predict_wsi fuel slide 0 enable_downsample log
  = Some (Raise e, log ++ [Working enable_downsample]) /\
  predict_slides fuel (slide :: rest) enable_downsample log
  = Some (Raise e, log ++ [Working enable_downsample]).
Proof.
  intros E0 Hne Hf. destruct fuel as [|fuel]; [lia|].
  assert (Hone : predict_wsi (S fuel) slide 0 enable_downsample log
                 = Some (Raise e, log ++ [Working enable_downsample])).
  { cbn [predict_wsi]. rewrite E0.
    destruct e; try reflexivity. now contradiction Hne. }
  split; [exact Hone|]. cbn [predict_slides]. now rewrite Hone.
Qed.

Lemma other_exception_sample :
  predict_slides 2 [(fun _ _ => Raises RuntimeError); (fun _ _ => Exported)] true []
  = Some (Raise RuntimeError, [Working true]).
Proof.
  apply (@other_exception_ends_the_loop
           (fun _ _ => Raises RuntimeError) [(fun _ _ => Exported)] true RuntimeError [] 2);
    [reflexivity | discriminate | lia].
Defined.

End ProjectFacts.

(* ================================================================== *)
(** * Further properties of the Reinhard normaliser *)
(* ================================================================== *)

Module ReinhardMore.
Import Reinhard ReinhardFacts ReinhardScopes.

Section More.
Context {ops : TorchOps}.

(** ** Contexts that do not broadcast *)

Lemma broadcastable_dec (v : list F) (B : nat) :
  {broadcastable v B} + {~ broadcastable v B}.
Proof.
  unfold broadcastable.
  destruct (Nat.eq_dec (length v) 1) as [H1|H1]; [left; now left|].
  destruct (Nat.eq_dec (length v) B) as [HB|HB]; [left; now right|].
  right. tauto.
Defined.

Lemma expand_fails (v : list F) (B : nat) :
  ~ broadcastable v B -> expand v B = Raise RuntimeError.
Proof.
  unfold broadcastable, expand. intros H.
  destruct v as [|x [|y v]].
  - destruct (Nat.eqb_spec (length (@nil F)) B) as [E|E]; [|reflexivity].
    exfalso. apply H. now right.
  - exfalso. apply H. now left.
  - destruct (Nat.eqb_spec (length (x :: y :: v)) B) as [E|E]; [|reflexivity].
    exfalso. apply H. now right.
Qed.

Lemma norm_fails (X : batch F) (m s : list F) (a c : F) :
  ~ (broadcastable m (length X) /\ broadcastable s (length X)) ->
  norm X m s a c = Raise RuntimeError.
Proof.
  intros H. unfold norm.
  destruct (broadcastable_dec m (length X)) as [Hm|Hm].
  - rewrite (expand_ok Hm). simpl.
    rewrite length_map2, length_map, length_seq, Nat.min_id.
    rewrite expand_fails; [reflexivity|].
    unfold broadcastable in *. rewrite length_map. tauto.
  - now rewrite (expand_fails Hm).
Qed.


Lemma length_channel (c : F3 -> F) (I : batch rgb8) :
  length (bmap c (bmap lab_of I)) = length I.
Proof. unfold bmap. now rewrite !length_map. Qed.

Lemma transform_context_misfit (I : batch rgb8) (tm ts : F3) (m s : stats)
      (thr : option F) :
  ~ (stats_fit m (length I) /\ stats_fit s (length I)) ->
  transform I tm ts (Some m) (Some s) thr = Raise RuntimeError.
Proof.
  destruct m as [[m1 m2] m3], s as [[s1 s2] s3]. unfold stats_fit. simpl.
  intros H. unfold transform, lab_split.
  destruct (broadcastable_dec m1 (length I)) as [Hm1|Hm1],
           (broadcastable_dec s1 (length I)) as [Hs1|Hs1];
    try (rewrite (@norm_fails (bmap ch1 (bmap lab_of I)) m1 s1)
          by (rewrite length_channel; tauto); reflexivity).
  rewrite (@norm_rescales _ (bmap ch1 (bmap lab_of I)) m1 s1)
    by (rewrite length_channel; assumption).
  cbn [bind].
  destruct (broadcastable_dec m2 (length I)) as [Hm2|Hm2],
           (broadcastable_dec s2 (length I)) as [Hs2|Hs2];
    try (rewrite (@norm_fails (bmap ch2 (bmap lab_of I)) m2 s2)
          by (rewrite length_channel; tauto); reflexivity).
  rewrite (@norm_rescales _ (bmap ch2 (bmap lab_of I)) m2 s2)
    by (rewrite length_channel; assumption).
  cbn [bind].
  rewrite (@norm_fails (bmap ch3 (bmap lab_of I)) m3 s3)
    by (rewrite length_channel; tauto).
  reflexivity.
Qed.

(** ** The result in closed form *)

Lemma where_imap (g : rgb8 -> bool) (f : nat -> rgb8 -> rgb8) (I : batch rgb8) :
  where_ (bmap g I) (imap (fun b img => map (map (f b)) img) I) I
  = imap (fun b img => map (map (fun p => if g p then f b p else p)) img) I.
Proof.
  unfold where_, bmap2, bmap, imap. generalize 0 as s.
  induction I as [|img I IH]; intros s; simpl; [reflexivity|].
  f_equal; [|apply IH].
  induction img as [|row img IHimg]; simpl; [reflexivity|].
  f_equal; [|apply IHimg].
  induction row as [|p row IHrow]; simpl; [reflexivity|].
  now rewrite IHrow.
Qed.

Lemma transform_closed_form (I : batch rgb8) (tm ts : F3) (cm cs : option stats)
      (thr : option F) :
  context_fits cm cs (length I) ->
  transform I tm ts cm cs thr
  = Ok (imap (fun b img => map (map (pixel_fn I tm ts cm cs thr b)) img) I).
Proof.
  intros Hfit. unfold pixel_fn.
  destruct (threshold_set thr) as [t|] eqn:Hthr.
  - rewrite (transform_masked _ _ _ _ _ _ Hthr), (transform_rescales I tm ts cm cs Hfit).
    cbn [bind]. f_equal.
    apply (where_imap (fun p => flt (lightness_fraction p) t)).
  - rewrite (transform_unmasked _ _ _ _ _ _ Hthr).
    exact (transform_rescales I tm ts cm cs Hfit).
Qed.

(** ** Shapes *)





(** ** Transforming inside a scope *)

(** The statistics [set_context] stores hold one value per channel, so they
    broadcast to a batch of any length. *)
Lemma masked_stats_fit (C : batch rgb8) (B : nat) :
  stats_fit (fst (get_masked_mean_std C)) B /\ stats_fit (snd (get_masked_mean_std C)) B.
Proof.
  rewrite get_masked_mean_std_foreground. cbn [fst snd].
  repeat split; left; reflexivity.
Qed.

Lemma normalizer_transform_returns (X : image_arg) (m s : stats) (a1 a2 : option stats)
      (self : normalizer) :
  _get_context_means self a1 a2 = (Some m, Some s) ->
  stats_fit m (length (batch_of X)) -> stats_fit s (length (batch_of X)) ->
  exists Y, normalizer_transform X a1 a2 self = (Ok Y, self).
Proof.
  intros Hctx Hm Hs. unfold normalizer_transform. rewrite Hctx.
  destruct X as [img|I]; cbn [batch_of] in *.
  - rewrite (@transform_closed_form [img] _ _ (Some m) (Some s) _) by (now split).
    cbn [bind imap length seq map2]. eexists. reflexivity.
  - rewrite (@transform_closed_form I _ _ (Some m) (Some s) _) by (now split).
    cbn [bind]. eexists. reflexivity.
Qed.

(** A [transform] inside [with image_context(C):] is the [transform] of a
    normaliser without a stored context that is handed the masked statistics
    of [C]; it returns, and the scope leaves no context stored. *)
Lemma scoped_transform (C X : image_arg) (a1 a2 : option stats) (self : normalizer) :
  let ctx := get_masked_mean_std (clip_size (batch_of C) 2048) in
  let outside := snd (clear_context self) in
  with_cm (image_context C) (normalizer_transform X a1 a2) self
  = normalizer_transform X (Some (fst ctx)) (Some (snd ctx)) outside /\
  exists Y, normalizer_transform X (Some (fst ctx)) (Some (snd ctx)) outside
            = (Ok Y, outside).
Proof.
  intros ctx outside.
  destruct (masked_stats_fit (clip_size (batch_of C) 2048) (length (batch_of X)))
    as [Hm Hs]. fold ctx in Hm, Hs.
  destruct (@normalizer_transform_returns X (fst ctx) (snd ctx)
              (Some (fst ctx)) (Some (snd ctx)) outside eq_refl Hm Hs) as [Y HY].
  split; [|now exists Y].
  rewrite HY. unfold with_cm, image_context. cbn [before_yield after_yield].
  set (inside := {| target_means := target_means self; target_stds := target_stds self;
                    _ctx_means := Some (fst ctx); _ctx_stds := Some (snd ctx);
                    threshold := threshold self |}).
  assert (Hset : set_context C self = (Ok tt, inside)).
  { unfold set_context, inside, ctx, batch_of.
    now destruct (get_masked_mean_std _). }
  assert (Hin : normalizer_transform X a1 a2 inside = (Ok Y, inside)).
  { revert HY. unfold normalizer_transform, _get_context_means, outside, clear_context.
    cbn [fst snd target_means target_stds _ctx_means _ctx_stds threshold inside].
    destruct X as [img|I].
    - destruct (transform [img] _ _ _ _ _) as [out|e]; cbn [bind]; [|discriminate].
      destruct out as [|o out]; [discriminate|]. now intros [= ->].
    - destruct (transform I _ _ _ _ _) as [out|e]; cbn [bind]; [|discriminate].
      now intros [= ->]. }
  rewrite Hset, Hin. reflexivity.
Qed.

(** X21.  Inside [with image_context(C):] the context arguments of [transform]
    are not used, a half-given pair included: the call is the one of a
    normaliser without a stored context, handed the masked statistics of [C]
    for both; it returns for a single image and for a batch of any length;
    and the scope leaves the target, the threshold and no context. *)
Theorem transform_in_image_context (C X : image_arg) (a1 a2 : option stats)
        (self : normalizer) :
  let ctx := get_masked_mean_std (clip_size (batch_of C) 2048) in
  let outside := snd (clear_context self) in
  with_cm (image_context C) (normalizer_transform X a1 a2) self
  = normalizer_transform X (Some (fst ctx)) (Some (snd ctx)) outside /\
  (exists Y, with_cm (image_context C) (normalizer_transform X a1 a2) self
             = (Ok Y, outside)) /\
  target_means outside = target_means self /\
  target_stds outside = target_stds self /\
  threshold outside = threshold self /\
  _ctx_means outside = None /\ _ctx_stds outside = None.
Proof.
  intros ctx outside.
  destruct (scoped_transform C X a1 a2 self) as [Heq [Y HY]].
  fold ctx outside in Heq, HY.
  split; [exact Heq|]. split; [exists Y; now rewrite Heq|].
  repeat split.
Qed.

(** X22.  Scopes do not nest.  Leaving an inner [with image_context(B):] clears
    the context the enclosing [with image_context(A):] had set: a
    [transform] that follows the inner scope, still inside the outer one, is
    the [transform] of a normaliser without a stored context, with its own
    context arguments. *)
Theorem inner_context_clears_outer (A B X Y : image_arg) (a1 a2 : option stats)
        (self : normalizer) :
  with_cm (image_context A)
          (then_ (with_cm (image_context B) (normalizer_transform X None None))
                 (normalizer_transform Y a1 a2))
          self
  = normalizer_transform Y a1 a2 (snd (clear_context self)).
Proof.
  unfold with_cm at 1. unfold image_context at 1. cbn [before_yield after_yield].
  set (inside := snd (set_context A self)).
  assert (Hset : set_context A self = (Ok tt, inside)).
  { unfold inside, set_context. now destruct (get_masked_mean_std _). }
  rewrite Hset. unfold then_.
  destruct (scoped_transform B X None None inside) as [Heq [Z HZ]].
  cbv zeta in Heq, HZ. rewrite Heq, HZ.
  assert (Hout : snd (clear_context inside) = snd (clear_context self)).
  { unfold inside, set_context, clear_context.
    now destruct (get_masked_mean_std _). }
  rewrite Hout.
  assert (Hsnd : snd (normalizer_transform Y a1 a2 (snd (clear_context self)))
                 = snd (clear_context self)).
  { unfold normalizer_transform.
    destruct (_get_context_means _ a1 a2). now destruct Y. }
  destruct (normalizer_transform Y a1 a2 (snd (clear_context self))) as [[r|e] s2];
    cbn [snd] in Hsnd; subst s2; reflexivity.
Qed.

(** ** Whole tiles under the mask *)

Lemma in_bflat A (I : batch A) (img : image A) (row : list A) (p : A) :
  In img I -> In row img -> In p row -> In p (bflat I).
Proof.
  intros Hi Hr Hp. unfold bflat, flat.
  apply in_concat. exists (concat img). split.
  - apply in_map_iff. now exists img.
  - apply in_concat. now exists row.
Qed.

Lemma imap_pixels_ext (f g : nat -> rgb8 -> rgb8) (I : batch rgb8) :
  (forall b p, In p (bflat I) -> f b p = g b p) ->
  imap (fun b img => map (map (f b)) img) I = imap (fun b img => map (map (g b)) img) I.
Proof.
  intros H. apply imap_ext_nth. intros b img Hb.
  apply map_ext_in. intros row Hrow. apply map_ext_in. intros p Hp.
  apply H. apply (in_bflat I img row p); trivial.
  now apply nth_error_In with b.
Qed.

Lemma imap_pixels_id (I : batch rgb8) :
  imap (fun (_ : nat) img => map (map (fun p : rgb8 => p)) img) I = I.
Proof.
  rewrite imap_const. etransitivity; [|apply map_id].
  apply map_ext. intros img. etransitivity; [|apply map_id].
  apply map_ext. intros row. apply map_id.
Qed.

(** X23.  With a threshold that is set, a batch none of whose pixels has a
    lightness fraction below the threshold is returned as it is, whatever
    the target and the context statistics are; and a batch all of whose
    pixels are below it is normalised as without a mask. *)
Theorem mask_on_whole_tiles (I : batch rgb8) (tm ts : F3) (cm cs : option stats)
        (thr : option F) (t : F) :
  threshold_set thr = Some t ->
  context_fits cm cs (length I) ->
  ((forall p, In p (bflat I) -> flt (lightness_fraction p) t = false) ->
   transform I tm ts cm cs thr = Ok I) /\
  ((forall p, In p (bflat I) -> flt (lightness_fraction p) t = true) ->
   transform I tm ts cm cs thr = transform I tm ts cm cs None).
Proof.
  intros Hthr Hfit.
  rewrite (transform_closed_form I tm ts cm cs thr Hfit).
  rewrite (transform_closed_form I tm ts cm cs None Hfit).
  split; intros Hall; f_equal.
  - etransitivity; [|apply imap_pixels_id].
    apply (imap_pixels_ext (pixel_fn I tm ts cm cs thr) (fun _ p => p)).
    intros b p Hp. unfold pixel_fn. now rewrite Hthr, (Hall p Hp).
  - apply imap_pixels_ext. intros b p Hp. unfold pixel_fn.
    now rewrite Hthr, (Hall p Hp).
Qed.

(** ** Images of a batch *)

(** The statistics an image is rescaled from when the context, if any, holds
    one value per channel. *)
Lemma own_statistics (I : batch rgb8) (cm cs : option stats) (b : nat) (img : image rgb8) :
  context_fits cm cs 1 -> nth_error I b = Some img ->
  source_mean I cm b = source_mean [img] cm 0 /\
  source_std I cs b = source_std [img] cs 0.
Proof.
  intros Hfit Hb. unfold source_mean, source_std.
  assert (Hrow : forall v : list F, broadcastable v 1 -> row_at v b = row_at v 0).
  { intros v [Hv|Hv]; destruct v as [|x [|y v]]; try discriminate Hv; reflexivity. }
  destruct cm as [[[m1 m2] m3]|], cs as [[[s1 s2] s3]|]; try contradiction.
  - destruct Hfit as [(Hm1 & Hm2 & Hm3) (Hs1 & Hs2 & Hs3)]. cbn [fst snd] in *.
    unfold stats_at. cbn [fst snd].
    now rewrite (Hrow m1), (Hrow m2), (Hrow m3), (Hrow s1), (Hrow s2), (Hrow s3).
  - rewrite (nth_error_nth I b [] Hb). now split.
Qed.

Lemma context_fits_any (cm cs : option stats) (B : nat) :
  context_fits cm cs 1 -> context_fits cm cs B.
Proof.
  assert (Hb : forall v : list F, broadcastable v 1 -> broadcastable v B)
    by (intros v [Hv|Hv]; now left).
  destruct cm as [[[m1 m2] m3]|], cs as [[[s1 s2] s3]|]; trivial.
  unfold context_fits, stats_fit. cbn [fst snd].
  intros [(Hm1 & Hm2 & Hm3) (Hs1 & Hs2 & Hs3)]. repeat split; now apply Hb.
Qed.

Lemma transform_image_by_image (I : batch rgb8) (tm ts : F3) (cm cs : option stats)
      (thr : option F) :
  context_fits cm cs 1 ->
  transform I tm ts cm cs thr
  = Ok (map (fun img => map (map (pixel_fn [img] tm ts cm cs thr 0)) img) I).
Proof.
  intros Hfit.
  rewrite (transform_closed_form I tm ts cm cs thr (@context_fits_any cm cs (length I) Hfit)).
  f_equal. rewrite <- imap_const. apply imap_ext_nth. intros b img Hb.
  destruct (@own_statistics I cm cs b img Hfit Hb) as [Hm Hs].
  unfold pixel_fn. now rewrite Hm, Hs.
Qed.

(** X24.  Without a context, or with a context of one value per channel (as a
    masked fit and [set_context] produce), the images of a batch are
    normalised independently of each other: the result for two batches put
    together is the two results put together, and every image of a batch
    comes out as it does when transformed alone. *)
Theorem images_are_normalised_independently (I J : batch rgb8) (tm ts : F3)
        (cm cs : option stats) (thr : option F) :
  context_fits cm cs 1 ->
  exists oi oj,
    transform I tm ts cm cs thr = Ok oi /\
    transform J tm ts cm cs thr = Ok oj /\
    transform (I ++ J) tm ts cm cs thr = Ok (oi ++ oj) /\
    forall b img, nth_error I b = Some img ->
                  exists o, nth_error oi b = Some o /\
                            transform [img] tm ts cm cs thr = Ok [o].
Proof.
  intros Hfit. rewrite !(transform_image_by_image _ tm ts cm cs thr Hfit).
  do 2 eexists. split; [reflexivity|]. split; [reflexivity|].
  split; [now rewrite map_app|].
  intros b img Hb. eexists. split; [exact (@map_nth_error _ _ _ b I img Hb)|].
  now rewrite (transform_image_by_image _ tm ts cm cs thr Hfit).
Qed.

(** ** A fit as a context *)

Lemma Ok_inj A (a b : A) : Ok a = Ok b -> a = b.
Proof. now intros [= ->]. Qed.

(** X25.  What [fit] returns can be handed to [transform] as a context.  A masked
    fit, of any target and with either value of [reduce], is accepted for
    every batch.  The per-image fit of a batch is accepted for that batch,
    where it gives what no context gives, and for batches of the same
    length; for a batch of another length it is torch's RuntimeError, unless
    the fitted batch held a single image. *)
Theorem fit_as_context (target I : batch rgb8) (reduce mask : bool) (m s : stats)
        (tm ts : F3) (thr : option F) :
  fit target reduce mask = Ok (m, s) ->
  (mask = true ->
   exists out, transform I tm ts (Some m) (Some s) thr = Ok out) /\
  (mask = false -> reduce = false ->
   transform target tm ts (Some m) (Some s) thr = transform target tm ts None None thr /\
   (length I = length target ->
    exists out, transform I tm ts (Some m) (Some s) thr = Ok out) /\
   (length I <> length target -> length target <> 1 ->
    transform I tm ts (Some m) (Some s) thr = Raise RuntimeError)).
Proof.
  unfold fit. intros Hfit. split.
  - intros ->. apply Ok_inj in Hfit.
    destruct (masked_stats_fit target (length I)) as [Hm Hs].
    rewrite Hfit in Hm, Hs. cbn [fst snd] in Hm, Hs.
    eexists. apply (@transform_closed_form I tm ts (Some m) (Some s) thr). now split.
  - intros -> ->. unfold lab_split in Hfit. apply Ok_inj in Hfit.
    destruct m as [[m1 m2] m3], s as [[s1 s2] s3].
    unfold get_mean_std in Hfit. injection Hfit as <- <- <- <- <- <-.
    assert (Hfits : forall B, B = length target ->
                              forall c (f : list F -> F),
                                broadcastable
                                  (map (fun img => f (flat img)) (bmap c (bmap lab_of target)))
                                  B).
    { intros B -> c f. right. rewrite length_map. apply length_channel. }
    split; [|split].
    + reflexivity.
    + intros HI. eexists.
      apply (@transform_closed_form I tm ts (Some _) (Some _) thr).
      unfold context_fits, stats_fit. cbn [fst snd].
      repeat split; now apply Hfits.
    + intros HI H1. apply transform_context_misfit.
      unfold stats_fit. cbn [fst snd].
      intros [[[Hb|Hb] _] _]; rewrite length_map, length_channel in Hb; congruence.
Qed.

End More.

(** ** The properties on sample tiles, in IEEE arithmetic *)

Section MoreSamples.
Import IEEE.
Local Open Scope Z_scope.
#[local] Existing Instance IEEE.ops.


(** The blank tile under the threshold one half comes back as it is. *)
Lemma blank_tile_under_mask_sample :
  threshold_set (Some half) = Some half /\
  (forall p, In p (bflat blank_tile) -> flt (lightness_fraction p) half = false) /\
  transform blank_tile target_mean target_std None None (Some half) = Ok blank_tile.
Proof.
  assert (Hall : forall p, In p (bflat blank_tile) ->
                           flt (lightness_fraction p) half = false).
  { intros p Hp. cbn in Hp. destruct Hp as [<-|[<-|[]]]; vm_compute; reflexivity. }
  split; [reflexivity|]. split; [exact Hall|].
  destruct (@mask_on_whole_tiles IEEE.ops blank_tile target_mean target_std None None
                                 (Some half) half eq_refl Logic.I) as [H _].
  exact (H Hall).
Defined.

(** The three-pixel tile and the uniform tile in one batch. *)
Lemma two_tiles_sample :
  context_fits None None 1 /\
  transform (tile ++ uniform_tile) target_mean target_std None None None
  = Ok ([[[(163, 153, 143); (144, 126, 107); (112, 102, 92)]]]
          ++ [[[(0, 0, 0); (0, 0, 0)]]]).
Proof.
  split; [exact Logic.I|].
  destruct (@images_are_normalised_independently
              IEEE.ops tile uniform_tile target_mean target_std None None None Logic.I)
    as (oi & oj & Hi & Hj & Hij & _).
  rewrite Hij. vm_compute in Hi, Hj.
  injection Hi as <-. injection Hj as <-. reflexivity.
Defined.

(** The per-image fit of two tiles is no context for one tile. *)
Lemma fit_of_two_tiles_sample :
  exists m s,
    fit (tile ++ uniform_tile) false false = Ok (m, s) /\
    transform tile target_mean target_std (Some m) (Some s) None = Raise RuntimeError.
Proof.
  destruct (fit (tile ++ uniform_tile) false false) as [[m s]|e] eqn:Hfit;
    [|discriminate Hfit].
  exists m, s. split; [reflexivity|].
  destruct (@fit_as_context IEEE.ops (tile ++ uniform_tile) tile false false m s
                            target_mean target_std None Hfit) as [_ H].
  destruct (H eq_refl eq_refl) as (_ & _ & Hraise).
  apply Hraise; cbn; discriminate.
Defined.

End MoreSamples.

End ReinhardMore.
